(** * Bagpack: the collection pipeline of [apps/bagpack-tui/src/collect.ts]

    A shallow embedding of the TypeScript collectors ([runCommand],
    [collectBrew], [collectNpm], [collectPip], [collectInventory]) and of
    the shared types of [types.ts], followed by the properties the
    specification states about them.

    Conventions.
    - A JavaScript string is the list of its UTF-16 code units.
    - [async] code is sequential here: every [await] in the source is
      awaited before the next statement runs, so an [async] function is a
      state-passing function that either returns a value or throws.
    - The process runtime ([Bun.spawn]), the clock ([new Date()]) and
      [JSON.parse] are the platform; they are fields of [Platform].
      A parsed JSON value is taken at the TypeScript type the source casts
      it to.
    - The wire document and the refresh scheduler are not among the
      sources: the modules [Wire] and [RefreshScheduler] follow the
      specification. *)

From Stdlib Require Import List NArith ZArith String Ascii Bool Lia Arith.
From Stdlib Require DecimalString.
From Stdlib Require Import Permutation.
Import ListNotations.

Set Implicit Arguments.

Open Scope string_scope.
Open Scope list_scope.

(* ================================================================= *)
(** ** JavaScript strings *)
(* ================================================================= *)

Module Js.

Definition jsstring := list N.

(** A literal of the source, code unit by code unit. *)
Definition lit (s : string) : jsstring :=
  map N_of_ascii (list_ascii_of_string s).

Fixpoint eqb (a b : jsstring) : bool :=
  match a, b with
  | [], [] => true
  | x :: a', y :: b' => N.eqb x y && eqb a' b'
  | _, _ => false
  end.

(** [!s] is true of the empty string only, so a string is truthy when it
    has at least one code unit. *)
Definition truthy (s : jsstring) : bool :=
  match s with [] => false | _ :: _ => true end.

(** ECMAScript WhiteSpace and LineTerminator code points: what
    [String.prototype.trim] strips and what [\s] matches. *)
Definition is_space (c : N) : bool :=
  (N.eqb c 9 || N.eqb c 10 || N.eqb c 11 || N.eqb c 12 || N.eqb c 13
   || N.eqb c 32 || N.eqb c 160 || N.eqb c 5760
   || (N.leb 8192 c && N.leb c 8202)
   || N.eqb c 8232 || N.eqb c 8233 || N.eqb c 8239 || N.eqb c 8287
   || N.eqb c 12288 || N.eqb c 65279)%N.

Fixpoint trimStart (s : jsstring) : jsstring :=
  match s with
  | c :: s' => if is_space c then trimStart s' else s
  | [] => []
  end.

Definition trimEnd (s : jsstring) : jsstring := rev (trimStart (rev s)).

(** [s.trim()] *)
Definition trim (s : jsstring) : jsstring := trimEnd (trimStart s).

(** [s.split(sep)] for a separator of one code unit: the pieces between
    the separators, empty pieces included. *)
Fixpoint split_on (sep : N) (s : jsstring) : list jsstring :=
  match s with
  | [] => [[]]
  | c :: s' =>
      if N.eqb c sep then [] :: split_on sep s'
      else match split_on sep s' with
           | piece :: rest => (c :: piece) :: rest
           | [] => [[c]]
           end
  end.

(** [s.split(/\s+/)]: the pieces between the maximal runs of white space,
    the empty piece before a leading run and after a trailing run
    included.  [in_run] tells that the previous code unit was white. *)
Fixpoint split_ws_from (in_run : bool) (s : jsstring) : list jsstring :=
  match s with
  | [] => [[]]
  | c :: s' =>
      if is_space c then
        if in_run then split_ws_from true s'
        else [] :: split_ws_from true s'
      else match split_ws_from false s' with
           | piece :: rest => (c :: piece) :: rest
           | [] => [[c]]
           end
  end.

Definition split_ws (s : jsstring) : list jsstring := split_ws_from false s.

(** [parts.join(sep)] *)
Fixpoint join (sep : jsstring) (parts : list jsstring) : jsstring :=
  match parts with
  | [] => []
  | [p] => p
  | p :: rest => p ++ sep ++ join sep rest
  end.

(** [`${n}`] for an integer [n]: its decimal numeral. *)
Definition of_Z (n : Z) : jsstring :=
  lit (DecimalString.NilZero.string_of_int (Z.to_int n)).

End Js.

Abbreviation jsstring := Js.jsstring.

(* ================================================================= *)
(** ** The shared types ([types.ts]) *)
(* ================================================================= *)

Inductive PackageStatus := current | outdated | unknown.
Inductive PackageManager := brew | npm | pip.

Record PackageRecord := {
  name : jsstring;
  current_version : jsstring;
  latest_version : option jsstring;     (* string | null *)
  installed_at : option jsstring;       (* string | null *)
  status : PackageStatus;
  manager : PackageManager
}.

Record InventorySnapshot := {
  generated_at : option jsstring;       (* string | null, optional *)
  packages : list PackageRecord
}.

(** [{ manager, message }], as [collectInventory] builds it. *)
Record CollectionWarning := {
  warn_manager : PackageManager;
  warn_message : jsstring
}.

Record CollectionSummary := {
  snapshot : InventorySnapshot;
  warnings : list CollectionWarning
}.

Definition PackageManager_eqb (a b : PackageManager) : bool :=
  match a, b with
  | brew, brew | npm, npm | pip, pip => true
  | _, _ => false
  end.

(* ================================================================= *)
(** ** [Map<string, string>] *)
(* ================================================================= *)

(** A JavaScript [Map] iterates in insertion order, and [set] on a key
    already present keeps the key's place: the entries as a list. *)
Module JsMap.

Definition t := list (jsstring * jsstring).

Definition empty : t := [].

Fixpoint set (k v : jsstring) (m : t) : t :=
  match m with
  | [] => [(k, v)]
  | (k', v') :: m' =>
      if Js.eqb k' k then (k', v) :: m' else (k', v') :: set k v m'
  end.

Fixpoint get (k : jsstring) (m : t) : option jsstring :=
  match m with
  | [] => None
  | (k', v') :: m' => if Js.eqb k' k then Some v' else get k m'
  end.

Definition size (m : t) : nat := List.length m.

Definition entries (m : t) : list (jsstring * jsstring) := m.

End JsMap.

(* ================================================================= *)
(** ** The platform *)
(* ================================================================= *)

(** [new Error(message)]. *)
Record JsError := Error { message : jsstring }.

(** What [Bun.spawn] and the awaits on the subprocess give: the exit
    code with everything written to the two pipes, or an error thrown by
    [Bun.spawn] itself (the executable is not on the search path). *)
Inductive SpawnResult :=
| Exited (code : Z) (stdout stderr : jsstring)
| SpawnFailed (e : JsError).

(** The payload types the source casts parsed JSON to. *)
Record BrewFormula := {
  formula_name : jsstring;
  formula_installed_versions : option (list jsstring);
  formula_current_version : option jsstring;
  formula_latest_version : option jsstring
}.

(** [formulae] is read through [?? []], so it may be missing. *)
Record BrewOutdated := { formulae : option (list BrewFormula) }.

Record NpmDependency := { dep_version : option jsstring }.

(** An object read with [Object.entries] is the list of its entries in
    enumeration order. *)
Record NpmTree := {
  dependencies : option (list (jsstring * option NpmDependency))
}.

Record NpmOutdatedDetails := { latest : option jsstring }.
Definition NpmOutdated := list (jsstring * NpmOutdatedDetails).

Record PipPackage := { pip_name : jsstring; pip_version : jsstring }.
Record PipOutdated := {
  pip_outdated_name : jsstring;
  pip_latest_version : jsstring
}.

(** [JSON.parse(text) as T]: the value, or [String(error)] of the
    error it throws. *)
Definition Parser (T : Type) := jsstring -> jsstring + T.

Record Platform := {
  World : Type;
  Bun_spawn : list jsstring -> World -> SpawnResult * World;
  Date_toISOString : World -> jsstring * World;
  JSON_parse_BrewOutdated : Parser BrewOutdated;
  JSON_parse_NpmTree : Parser NpmTree;
  JSON_parse_NpmOutdated : Parser NpmOutdated;
  JSON_parse_PipList : Parser (list PipPackage);
  JSON_parse_PipOutdated : Parser (list PipOutdated)
}.

(* ================================================================= *)
(** ** Asynchronous functions that may throw *)
(* ================================================================= *)

Inductive Completion (A : Type) :=
| Returned (a : A)
| Thrown (e : JsError).

Arguments Returned {A} a.
Arguments Thrown {A} e.

Section Collect.

Variable P : Platform.

(** The state of a run: the world outside, and the command lines handed
    to [Bun.spawn] so far, oldest first. *)
Record Runtime := {
  world : World P;
  spawned : list (list jsstring)
}.

Definition Async (A : Type) := Runtime -> Completion A * Runtime.

Definition ret {A} (a : A) : Async A := fun rt => (Returned a, rt).

Definition throw {A} (e : JsError) : Async A := fun rt => (Thrown e, rt).

Definition bind {A B} (c : Async A) (k : A -> Async B) : Async B :=
  fun rt =>
    match c rt with
    | (Returned a, rt') => k a rt'
    | (Thrown e, rt') => (Thrown e, rt')
    end.

(** [try { body } catch (error) { handler }] *)
Definition try_catch {A} (body : Async A) (handler : JsError -> Async A)
  : Async A :=
  fun rt =>
    match body rt with
    | (Returned a, rt') => (Returned a, rt')
    | (Thrown e, rt') => handler e rt'
    end.

Notation "x <- c ;; k" := (bind c (fun x => k))
  (at level 61, c at next level, right associativity).

(** [JSON.parse] inside [try ... catch (error) { throw new Error(prefix +
    String(error)) }]. *)
Definition parse_or_throw {T} (parse : Parser T) (prefix : string)
    (text : jsstring) : Async T :=
  match parse text with
  | inr v => ret v
  | inl err => throw (Error (Js.lit prefix ++ err))
  end.

(** [Bun.spawn([program, ...args])], then [await subprocess.exited] and
    the two pipes read to their end. *)
Definition spawn (argv : list jsstring) : Async (Z * jsstring * jsstring) :=
  fun rt =>
    let (r, w') := Bun_spawn P argv (world rt) in
    let rt' := {| world := w'; spawned := spawned rt ++ [argv] |} in
    match r with
    | Exited code out err => (Returned (code, out, err), rt')
    | SpawnFailed e => (Thrown e, rt')
    end.

Definition now : Async jsstring :=
  fun rt =>
    let (ts, w') := Date_toISOString P (world rt) in
    (Returned ts, {| world := w'; spawned := spawned rt |}).

(* ================================================================= *)
(** ** [runCommand] *)
(* ================================================================= *)

Record CommandResult := {
  code : Z;
  stdout : jsstring;
  stderr : jsstring
}.

(** [allowedExitCodes.includes(code)] *)
Definition includes (codes : list Z) (c : Z) : bool :=
  existsb (Z.eqb c) codes.

Definition command_failure_message (program : jsstring)
    (args : list jsstring) (c : Z) (err : jsstring) : jsstring :=
  program ++ Js.lit " " ++ Js.join (Js.lit " ") args
    ++ Js.lit " failed (exit " ++ Js.of_Z c ++ Js.lit "): " ++ Js.trim err.

(** The third parameter is optional in the source and defaults to
    [[0]]: [None] is a call that leaves it out. *)
Definition allowed_or_default (allowedExitCodes : option (list Z)) : list Z :=
  match allowedExitCodes with Some codes => codes | None => [0%Z] end.

Definition runCommand (program : jsstring) (args : list jsstring)
    (allowedExitCodes : option (list Z)) : Async CommandResult :=
  let allowed := allowed_or_default allowedExitCodes in
  subprocess <- spawn (program :: args) ;;
  let '(c, out, err) := subprocess in
  if negb (includes allowed c) then
    throw (Error (command_failure_message program args c err))
  else
    ret {| code := c; stdout := out; stderr := err |}.

(* ================================================================= *)
(** ** The three collectors *)
(* ================================================================= *)

(** Truthiness of a [string | null | undefined]. *)
Definition truthy_opt (v : option jsstring) : bool :=
  match v with Some s => Js.truthy s | None => false end.

(** [a || b] *)
Definition js_or (a b : option jsstring) : option jsstring :=
  if truthy_opt a then a else b.

(** [latest !== current] for a [latest] that may be [null]. *)
Definition strict_neq (latest_v : option jsstring) (current_v : jsstring)
  : bool :=
  match latest_v with
  | Some l => negb (Js.eqb l current_v)
  | None => true
  end.

(** *** Homebrew *)

(** One turn of the loop over the lines of [brew list --versions]. *)
Definition brew_installed_step (installed : JsMap.t) (line : jsstring)
  : JsMap.t :=
  if negb (Js.truthy (Js.trim line)) then installed
  else
    let parts := Js.split_ws (Js.trim line) in
    if (List.length parts <? 2)%nat then installed
    else
      let name_ := nth 0 parts [] in
      let version := last parts [] in
      JsMap.set name_ version installed.

Definition brew_installed (out : jsstring) : JsMap.t :=
  fold_left brew_installed_step (Js.split_on 10 out) JsMap.empty.

(** One turn of the loop over [parsed.formulae ?? []]. *)
Definition brew_outdated_step (outdatedMap : JsMap.t) (formula : BrewFormula)
  : JsMap.t :=
  let latest_ :=
    js_or (js_or (formula_latest_version formula)
                 (formula_current_version formula)) None in
  if Js.truthy (formula_name formula) && truthy_opt latest_ then
    match latest_ with
    | Some l => JsMap.set (formula_name formula) l outdatedMap
    | None => outdatedMap
    end
  else outdatedMap.

Definition brew_outdated_map (parsed : BrewOutdated) : JsMap.t :=
  fold_left brew_outdated_step
    (match formulae parsed with Some fs => fs | None => [] end)
    JsMap.empty.

Definition brew_record (outdatedMap : JsMap.t)
    (entry : jsstring * jsstring) : PackageRecord :=
  let (name_, current_version_) := entry in
  let latest_version_ := JsMap.get name_ outdatedMap in
  let status_ :=
    if truthy_opt latest_version_
       && strict_neq latest_version_ current_version_
    then outdated else current in
  {| name := name_;
     current_version := current_version_;
     latest_version := latest_version_;
     installed_at := None;
     status := status_;
     manager := brew |}.

Definition brew_list_args : list jsstring :=
  [Js.lit "list"; Js.lit "--versions"].
Definition brew_outdated_args : list jsstring :=
  [Js.lit "outdated"; Js.lit "--json=v2"].

Definition collectBrew : Async (list PackageRecord) :=
  list_ <- runCommand (Js.lit "brew") brew_list_args None ;;
  let installed := brew_installed (stdout list_) in
  if (JsMap.size installed =? 0)%nat then ret []
  else
    outdated_ <- runCommand (Js.lit "brew") brew_outdated_args None ;;
    outdatedMap <-
      (if Js.truthy (Js.trim (stdout outdated_)) then
         parsed <- parse_or_throw (JSON_parse_BrewOutdated P)
                     "Failed to parse brew outdated JSON: "
                     (stdout outdated_) ;;
         ret (brew_outdated_map parsed)
       else ret JsMap.empty) ;;
    ret (map (brew_record outdatedMap) (JsMap.entries installed)).

(** *** npm *)

(** One turn of the loop over [Object.entries(parsed)] of the outdated
    step. *)
Definition npm_outdated_step (outdatedMap : JsMap.t)
    (entry : jsstring * NpmOutdatedDetails) : JsMap.t :=
  let (name_, details) := entry in
  if truthy_opt (latest details) then
    match latest details with
    | Some l => JsMap.set name_ l outdatedMap
    | None => outdatedMap
    end
  else outdatedMap.

Definition npm_outdated_map (parsed : NpmOutdated) : JsMap.t :=
  fold_left npm_outdated_step parsed JsMap.empty.

Definition npm_record (outdatedMap : JsMap.t) (name_ version : jsstring)
  : PackageRecord :=
  let latest_version_ := JsMap.get name_ outdatedMap in
  let status_ := if truthy_opt latest_version_ then outdated else current in
  {| name := name_;
     current_version := version;
     latest_version := latest_version_;
     installed_at := None;
     status := status_;
     manager := npm |}.

(** One turn of the loop over [Object.entries(dependencies)]. *)
Definition npm_packages_step (outdatedMap : JsMap.t)
    (packages_ : list PackageRecord)
    (entry : jsstring * option NpmDependency) : list PackageRecord :=
  let (name_, pkg) := entry in
  match pkg with
  | Some p =>
      match dep_version p with
      | Some v =>
          if negb (Js.truthy v) then packages_
          else packages_ ++ [npm_record outdatedMap name_ v]
      | None => packages_
      end
  | None => packages_
  end.

Definition npm_list_args : list jsstring :=
  [Js.lit "ls"; Js.lit "-g"; Js.lit "--depth=0"; Js.lit "--json"].
Definition npm_outdated_args : list jsstring :=
  [Js.lit "outdated"; Js.lit "-g"; Js.lit "--json"].

Definition collectNpm : Async (list PackageRecord) :=
  list_ <- runCommand (Js.lit "npm") npm_list_args None ;;
  parsed <- parse_or_throw (JSON_parse_NpmTree P)
              "Failed to parse npm ls JSON: " (stdout list_) ;;
  let dependencies_ :=
    match dependencies parsed with Some d => d | None => [] end in
  outdated_ <- runCommand (Js.lit "npm") npm_outdated_args
                 (Some [0%Z; 1%Z]) ;;
  outdatedMap <-
    (if Js.truthy (Js.trim (stdout outdated_)) then
       parsed_ <- parse_or_throw (JSON_parse_NpmOutdated P)
                    "Failed to parse npm outdated JSON: "
                    (stdout outdated_) ;;
       ret (npm_outdated_map parsed_)
     else ret JsMap.empty) ;;
  ret (fold_left (npm_packages_step outdatedMap) dependencies_ []).

(** *** pip *)

Definition pip_outdated_step (outdatedMap : JsMap.t) (pkg : PipOutdated)
  : JsMap.t :=
  JsMap.set (pip_outdated_name pkg) (pip_latest_version pkg) outdatedMap.

Definition pip_outdated_map (parsed : list PipOutdated) : JsMap.t :=
  fold_left pip_outdated_step parsed JsMap.empty.

Definition pip_record (outdatedMap : JsMap.t) (pkg : PipPackage)
  : PackageRecord :=
  let latest_version_ := JsMap.get (pip_name pkg) outdatedMap in
  let status_ := if truthy_opt latest_version_ then outdated else current in
  {| name := pip_name pkg;
     current_version := pip_version pkg;
     latest_version := latest_version_;
     installed_at := None;
     status := status_;
     manager := pip |}.

Definition pip_list_args : list jsstring :=
  [Js.lit "list"; Js.lit "--format=json"].
Definition pip_outdated_args : list jsstring :=
  [Js.lit "list"; Js.lit "--outdated"; Js.lit "--format=json"].

Definition collectPip : Async (list PackageRecord) :=
  list_ <- runCommand (Js.lit "pip") pip_list_args None ;;
  installed <- parse_or_throw (JSON_parse_PipList P)
                 "Failed to parse pip list JSON: " (stdout list_) ;;
  outdated_ <- runCommand (Js.lit "pip") pip_outdated_args None ;;
  outdatedMap <-
    (if Js.truthy (Js.trim (stdout outdated_)) then
       parsed <- parse_or_throw (JSON_parse_PipOutdated P)
                   "Failed to parse pip outdated JSON: "
                   (stdout outdated_) ;;
       ret (pip_outdated_map parsed)
     else ret JsMap.empty) ;;
  ret (map (pip_record outdatedMap) installed).

(* ================================================================= *)
(** ** [collectInventory] *)
(* ================================================================= *)

Record Handler := {
  handler_manager : PackageManager;
  runner : Async (list PackageRecord)
}.

Definition handlers : list Handler :=
  [ {| handler_manager := brew; runner := collectBrew |};
    {| handler_manager := npm; runner := collectNpm |};
    {| handler_manager := pip; runner := collectPip |} ].

(** [snapshot.packages.push(...packages)] *)
Definition push_packages (acc : CollectionSummary)
    (pkgs : list PackageRecord) : CollectionSummary :=
  {| snapshot :=
       {| generated_at := generated_at (snapshot acc);
          packages := packages (snapshot acc) ++ pkgs |};
     warnings := warnings acc |}.

(** [warnings.push({ manager, message })] *)
Definition push_warning (acc : CollectionSummary) (m : PackageManager)
    (error : JsError) : CollectionSummary :=
  {| snapshot := snapshot acc;
     warnings := warnings acc
                 ++ [ {| warn_manager := m; warn_message := message error |} ]
  |}.

(** The body of the [for ... of handlers] loop: the [try] and its
    [catch].  Every value thrown in this development is an [Error], so
    the warning's text is its [message]. *)
Definition handle (acc : CollectionSummary) (h : Handler)
  : Async CollectionSummary :=
  try_catch
    (packages_ <- runner h ;; ret (push_packages acc packages_))
    (fun error => ret (push_warning acc (handler_manager h) error)).

Fixpoint for_of (hs : list Handler) (acc : CollectionSummary)
  : Async CollectionSummary :=
  match hs with
  | [] => ret acc
  | h :: hs' => acc' <- handle acc h ;; for_of hs' acc'
  end.

Definition collectInventory : Async CollectionSummary :=
  generated_at_ <- now ;;
  for_of handlers
    {| snapshot := {| generated_at := Some generated_at_; packages := [] |};
       warnings := [] |}.

End Collect.

Arguments ret {P A} a.
Arguments throw {P A} e.
Arguments bind {P A B} c k.
Arguments try_catch {P A} body handler.
Arguments now {P}.
Arguments spawn {P} argv.
Arguments runCommand {P} program args allowedExitCodes.
Arguments collectBrew {P}.
Arguments collectNpm {P}.
Arguments collectPip {P}.
Arguments collectInventory {P}.

(* ================================================================= *)
(** ** Reading a run *)
(* ================================================================= *)

(** The runner [handlers] registers for a manager. *)
Definition collector {P : Platform} (m : PackageManager)
  : Async P (list PackageRecord) :=
  match m with
  | brew => collectBrew
  | npm => collectNpm
  | pip => collectPip
  end.

(** The six command lines of the collectors. *)
Definition command_lines : list (list jsstring) :=
  [ Js.lit "brew" :: brew_list_args; Js.lit "brew" :: brew_outdated_args;
    Js.lit "npm" :: npm_list_args; Js.lit "npm" :: npm_outdated_args;
    Js.lit "pip" :: pip_list_args; Js.lit "pip" :: pip_outdated_args ].

(** A collector failed when it threw. *)
Definition failed {A} (c : Completion A) : bool :=
  match c with Returned _ => false | Thrown _ => true end.

(** The records a collector's outcome holds. *)
Definition outcome_packages (c : Completion (list PackageRecord))
  : list PackageRecord :=
  match c with Returned rs => rs | Thrown _ => [] end.

(** The warning a collector's outcome calls for. *)
Definition outcome_warnings (m : PackageManager)
    (c : Completion (list PackageRecord)) : list CollectionWarning :=
  match c with
  | Returned _ => []
  | Thrown e => [ {| warn_manager := m; warn_message := message e |} ]
  end.

(** The three collectors run one after the other, as [collectInventory]
    awaits them: the state each one starts in. *)
Definition before {P : Platform} (m : PackageManager) (rt : Runtime P)
  : Runtime P :=
  let rt0 := snd (now rt) in
  match m with
  | brew => rt0
  | npm => snd (collectBrew rt0)
  | pip => snd (collectNpm (snd (collectBrew rt0)))
  end.

(** The outcome of manager [m]'s collector within the run of
    [collectInventory] that starts in [rt]. *)
Definition outcome {P : Platform} (rt : Runtime P) (m : PackageManager)
  : Completion (list PackageRecord) :=
  fst (collector m (before m rt)).

(** Every value of the map is a non-empty string. *)
Definition all_truthy (m : JsMap.t) : Prop :=
  Forall (fun v => Js.truthy v = true) (map snd m).

(** Running [c] spawns command lines of [allowed] only, whatever its
    outcome. *)
Definition spawns_only {P : Platform} {A} (allowed : list (list jsstring))
    (c : Async P A) : Prop :=
  forall rt, exists l,
    spawned (snd (c rt)) = spawned rt ++ l /\ incl l allowed.

(** [packagesByManager] of [+page.svelte]: the records of one manager, in
    the order they have in the snapshot. *)
Definition packagesByManager (inventory : InventorySnapshot)
    (m : PackageManager) : list PackageRecord :=
  filter (fun pkg => PackageManager_eqb (manager pkg) m) (packages inventory).

(* ================================================================= *)
(** ** A platform given by tables *)
(* ================================================================= *)

(** Command lines and JSON texts looked up in finite tables: the
    platform the concrete runs below execute on.  A command line that is
    not in the table is an executable that cannot be spawned; a text that
    is not in the table is not JSON. *)
Module Fixture.

Fixpoint argv_eqb (a b : list jsstring) : bool :=
  match a, b with
  | [], [] => true
  | x :: a', y :: b' => Js.eqb x y && argv_eqb a' b'
  | _, _ => false
  end.

Fixpoint lookup_process (argv : list jsstring)
    (table : list (list jsstring * SpawnResult)) : SpawnResult :=
  match table with
  | [] => SpawnFailed (Error (Js.lit "Executable not found in $PATH"))
  | (argv', r) :: table' =>
      if argv_eqb argv' argv then r else lookup_process argv table'
  end.

(** A JSON text of the tables is written with ['] where JSON has the
    double quote. *)
Definition json_text (s : string) : jsstring :=
  map (fun c => if N.eqb c 39 then 34%N else c) (Js.lit s).

(** Lines of output, each ended by a line feed. *)
Definition lines (ls : list string) : jsstring :=
  flat_map (fun l => Js.lit l ++ [10%N]) ls.

Fixpoint lookup_json {T} (table : list (string * T)) : Parser T :=
  fun text =>
    match table with
    | [] => inl (Js.lit "SyntaxError: JSON Parse error")
    | (text', v) :: table' =>
        if Js.eqb (json_text text') text then inr v
        else lookup_json table' text
    end.

Record Tables := {
  processes : list (list jsstring * SpawnResult);
  clock : jsstring;
  brew_outdated_json : list (string * BrewOutdated);
  npm_tree_json : list (string * NpmTree);
  npm_outdated_json : list (string * NpmOutdated);
  pip_list_json : list (string * list PipPackage);
  pip_outdated_json : list (string * list PipOutdated)
}.

Definition platform (t : Tables) : Platform :=
  {| World := unit;
     Bun_spawn := fun argv w => (lookup_process argv (processes t), w);
     Date_toISOString := fun w => (clock t, w);
     JSON_parse_BrewOutdated := lookup_json (brew_outdated_json t);
     JSON_parse_NpmTree := lookup_json (npm_tree_json t);
     JSON_parse_NpmOutdated := lookup_json (npm_outdated_json t);
     JSON_parse_PipList := lookup_json (pip_list_json t);
     JSON_parse_PipOutdated := lookup_json (pip_outdated_json t) |}.

(** The state a run starts in: nothing spawned yet. *)
Definition start (t : Tables) : Runtime (platform t) :=
  {| world := (tt : World (platform t)); spawned := [] |}.

(** The scenario of the specification: [wget] has an update in Homebrew,
    [typescript] has one in npm (so [npm outdated] exits with 1), and pip
    reports nothing outdated for [requests]. *)
Definition demo : Tables :=
  {| processes :=
       [ (Js.lit "brew" :: brew_list_args,
          Exited 0 (lines ["wget 1.24.5"]) []);
         (Js.lit "brew" :: brew_outdated_args,
          Exited 0
            (json_text "{'formulae':[{'name':'wget','latest_version':'1.24.6'}]}")
            []);
         (Js.lit "npm" :: npm_list_args,
          Exited 0
            (json_text "{'dependencies':{'typescript':{'version':'5.5.2'}}}")
            []);
         (Js.lit "npm" :: npm_outdated_args,
          Exited 1 (json_text "{'typescript':{'latest':'5.6.3'}}") []);
         (Js.lit "pip" :: pip_list_args,
          Exited 0 (json_text "[{'name':'requests','version':'2.32.3'}]")
            []);
         (Js.lit "pip" :: pip_outdated_args, Exited 0 (lines [""]) []) ];
     clock := Js.lit "2025-10-05T12:34:56.000Z";
     brew_outdated_json :=
       [ ("{'formulae':[{'name':'wget','latest_version':'1.24.6'}]}",
          {| formulae :=
               Some [ {| formula_name := Js.lit "wget";
                         formula_installed_versions := None;
                         formula_current_version := None;
                         formula_latest_version := Some (Js.lit "1.24.6") |} ]
          |}) ];
     npm_tree_json :=
       [ ("{'dependencies':{'typescript':{'version':'5.5.2'}}}",
          {| dependencies :=
               Some [ (Js.lit "typescript",
                       Some {| dep_version := Some (Js.lit "5.5.2") |}) ] |})
       ];
     npm_outdated_json :=
       [ ("{'typescript':{'latest':'5.6.3'}}",
          [ (Js.lit "typescript", {| latest := Some (Js.lit "5.6.3") |}) ]) ];
     pip_list_json :=
       [ ("[{'name':'requests','version':'2.32.3'}]",
          [ {| pip_name := Js.lit "requests";
               pip_version := Js.lit "2.32.3" |} ]) ];
     pip_outdated_json := [] |}.

(** [npm outdated] lists [typescript] with a [latest] equal to the
    installed version; brew and pip are not installed. *)
Definition npm_latest_is_current : Tables :=
  {| processes :=
       [ (Js.lit "npm" :: npm_list_args,
          Exited 0
            (json_text "{'dependencies':{'typescript':{'version':'5.5.2'}}}")
            []);
         (Js.lit "npm" :: npm_outdated_args,
          Exited 1 (json_text "{'typescript':{'latest':'5.5.2'}}") []) ];
     clock := Js.lit "2025-10-05T12:34:56.000Z";
     brew_outdated_json := [];
     npm_tree_json :=
       [ ("{'dependencies':{'typescript':{'version':'5.5.2'}}}",
          {| dependencies :=
               Some [ (Js.lit "typescript",
                       Some {| dep_version := Some (Js.lit "5.5.2") |}) ] |})
       ];
     npm_outdated_json :=
       [ ("{'typescript':{'latest':'5.5.2'}}",
          [ (Js.lit "typescript", {| latest := Some (Js.lit "5.5.2") |}) ]) ];
     pip_list_json := [];
     pip_outdated_json := [] |}.

(** No global npm package is installed, and [npm outdated] fails with
    exit code 2; Homebrew lists nothing; pip has one package. *)
Definition npm_nothing_installed : Tables :=
  {| processes :=
       [ (Js.lit "brew" :: brew_list_args, Exited 0 [] []);
         (Js.lit "npm" :: npm_list_args, Exited 0 (json_text "{}") []);
         (Js.lit "npm" :: npm_outdated_args,
          Exited 2 [] (lines ["npm error code ENOTFOUND"]));
         (Js.lit "pip" :: pip_list_args,
          Exited 0 (json_text "[{'name':'requests','version':'2.32.3'}]")
            []);
         (Js.lit "pip" :: pip_outdated_args, Exited 0 (json_text "[]") []) ];
     clock := Js.lit "2025-10-05T12:34:56.000Z";
     brew_outdated_json := [];
     npm_tree_json := [ ("{}", {| dependencies := None |}) ];
     npm_outdated_json := [];
     pip_list_json :=
       [ ("[{'name':'requests','version':'2.32.3'}]",
          [ {| pip_name := Js.lit "requests";
               pip_version := Js.lit "2.32.3" |} ]) ];
     pip_outdated_json := [ ("[]", []) ] |}.

(** The records the scenarios lead to. *)
Definition wget : PackageRecord :=
  {| name := Js.lit "wget";
     current_version := Js.lit "1.24.5";
     latest_version := Some (Js.lit "1.24.6");
     installed_at := None;
     status := outdated;
     manager := brew |}.

Definition typescript : PackageRecord :=
  {| name := Js.lit "typescript";
     current_version := Js.lit "5.5.2";
     latest_version := Some (Js.lit "5.6.3");
     installed_at := None;
     status := outdated;
     manager := npm |}.

Definition requests : PackageRecord :=
  {| name := Js.lit "requests";
     current_version := Js.lit "2.32.3";
     latest_version := None;
     installed_at := None;
     status := current;
     manager := pip |}.

(** [typescript] as [npm_latest_is_current] reports it. *)
Definition typescript_up_to_date : PackageRecord :=
  {| name := Js.lit "typescript";
     current_version := Js.lit "5.5.2";
     latest_version := Some (Js.lit "5.5.2");
     installed_at := None;
     status := outdated;
     manager := npm |}.

End Fixture.

(* ================================================================= *)
(** ** The status rule in the words of the specification *)
(* ================================================================= *)



(* ================================================================= *)
(** ** The wire document (specification, section 6) *)
(* ================================================================= *)

Module Wire.

(** Modelled from the spec: one entry of a manager's array in the wire
    document, [{ name, currentVersion, latestVersion, installedAt,
    status }]; the serializer and the parser of the document are not
    among the sources, only the types of [types.ts] are. *)
Record Package := {
  pkg_name : jsstring;
  currentVersion : jsstring;
  latestVersion : option jsstring;
  installedAt : option jsstring;
  pkg_status : jsstring
}.

(** Modelled from the spec: the [managers] object, keyed [brew], [npm],
    [pip]. *)
Record Managers := {
  of_brew : list Package;
  of_npm : list Package;
  of_pip : list Package
}.

(** Modelled from the spec: the document, [{ generatedAt, managers }]. *)
Record Document := {
  generatedAt : option jsstring;
  managers : Managers
}.

(** Modelled from the spec: [status] is written as [current], [outdated]
    or, for [unknown], the literal [-]. *)
Definition status_to_wire (s : PackageStatus) : jsstring :=
  match s with
  | current => Js.lit "current"
  | outdated => Js.lit "outdated"
  | unknown => Js.lit "-"
  end.

(** Modelled from the spec: reading [status] back; a text that is none of
    the three is not a status. *)
Definition status_of_wire (w : jsstring) : option PackageStatus :=
  if Js.eqb w (Js.lit "current") then Some current
  else if Js.eqb w (Js.lit "outdated") then Some outdated
  else if Js.eqb w (Js.lit "-") then Some unknown
  else None.

(** Modelled from the spec: a record as an entry of its manager's array;
    the manager itself is the key the array is under. *)
Definition package_to_wire (r : PackageRecord) : Package :=
  {| pkg_name := name r;
     currentVersion := current_version r;
     latestVersion := latest_version r;
     installedAt := installed_at r;
     pkg_status := status_to_wire (status r) |}.

(** Modelled from the spec: an entry read back as a record of the
    manager whose array it is in. *)
Definition package_of_wire (m : PackageManager) (p : Package)
  : option PackageRecord :=
  match status_of_wire (pkg_status p) with
  | Some s =>
      Some {| name := pkg_name p;
              current_version := currentVersion p;
              latest_version := latestVersion p;
              installed_at := installedAt p;
              status := s;
              manager := m |}
  | None => None
  end.

(** Modelled from the spec: the snapshot serialized, each record under
    the key of its manager. *)
Definition serialize (s : InventorySnapshot) : Document :=
  {| generatedAt := generated_at s;
     managers :=
       {| of_brew := map package_to_wire (packagesByManager s brew);
          of_npm := map package_to_wire (packagesByManager s npm);
          of_pip := map package_to_wire (packagesByManager s pip) |} |}.

(** Modelled from the spec: a manager's array read back, in its order;
    it is refused when one of its entries is. *)
Fixpoint packages_of_wire (m : PackageManager) (ps : list Package)
  : option (list PackageRecord) :=
  match ps with
  | [] => Some []
  | p :: ps' =>
      match package_of_wire m p, packages_of_wire m ps' with
      | Some r, Some rs => Some (r :: rs)
      | _, _ => None
      end
  end.

(** Modelled from the spec: the document parsed back, the managers in
    their enumeration order ([brew], [npm], [pip]), each array in its
    order. *)
Definition parse (d : Document) : option InventorySnapshot :=
  match packages_of_wire brew (of_brew (managers d)),
        packages_of_wire npm (of_npm (managers d)),
        packages_of_wire pip (of_pip (managers d)) with
  | Some b, Some n, Some p =>
      Some {| generated_at := generatedAt d; packages := b ++ n ++ p |}
  | _, _, _ => None
  end.

(** The packages are in manager enumeration order: all of brew's, then
    all of npm's, then all of pip's. *)
Definition manager_ordered (s : InventorySnapshot) : Prop :=
  packages s
  = packagesByManager s brew ++ packagesByManager s npm
    ++ packagesByManager s pip.

(** A snapshot of the declared type whose packages are not in manager
    enumeration order. *)
Definition interleaved : InventorySnapshot :=
  {| generated_at := Some (Js.lit "2025-10-05T12:34:56Z");
     packages :=
       [ {| name := Js.lit "typescript";
            current_version := Js.lit "5.5.2";
            latest_version := Some (Js.lit "5.6.3");
            installed_at := None;
            status := outdated;
            manager := npm |};
         {| name := Js.lit "wget";
            current_version := Js.lit "1.24.5";
            latest_version := None;
            installed_at := None;
            status := unknown;
            manager := brew |} ] |}.

End Wire.

(* ================================================================= *)
(** ** The refresh scheduler (specification, section 4.5) *)
(* ================================================================= *)

Module RefreshScheduler.

(** Modelled from the spec: the scheduler is [Idle], or [Running] one
    aggregation; the scheduler is not among the sources.  Runs are
    numbered in the order they start. *)
Inductive Phase := Idle | Running (run : nat).

(** Modelled from the spec: the state of the scheduler: its phase, the
    number of aggregations started so far, the summary stored as current,
    and the result of every run that has completed. *)
Record t := {
  phase : Phase;
  started : nat;
  current_summary : option CollectionSummary;
  completed : list (nat * CollectionSummary)
}.

Definition init : t :=
  {| phase := Idle; started := 0; current_summary := None; completed := [] |}.

(** Modelled from the spec: [refreshNow()].  While a run is in flight the
    caller is handed that run; otherwise the scheduler starts an
    aggregation and becomes [Running].  The value returned is the run
    whose eventual result the caller gets. *)
Definition refreshNow (s : t) : nat * t :=
  match phase s with
  | Running r => (r, s)
  | Idle =>
      (started s,
       {| phase := Running (started s);
          started := S (started s);
          current_summary := current_summary s;
          completed := completed s |})
  end.

(** Modelled from the spec: the aggregation in flight completes with
    [summary]: it is stored as current and the scheduler is [Idle]
    again. *)
Definition complete (summary : CollectionSummary) (s : t) : t :=
  match phase s with
  | Running r =>
      {| phase := Idle;
         started := started s;
         current_summary := Some summary;
         completed := (r, summary) :: completed s |}
  | Idle => s
  end.

(** Modelled from the spec: what a caller that was handed [run]
    observes: the summary the run completed with, once it has. *)
Fixpoint result_in (done : list (nat * CollectionSummary)) (run : nat)
  : option CollectionSummary :=
  match done with
  | [] => None
  | (r, summary) :: done' =>
      if Nat.eqb r run then Some summary else result_in done' run
  end.

Definition result_of (s : t) (run : nat) : option CollectionSummary :=
  result_in (completed s) run.

(** Modelled from the spec: what happens to a scheduler: a call of
    [refreshNow()], or the aggregation in flight completing. *)
Inductive Event :=
| RefreshNow
| Completed (summary : CollectionSummary).

Definition step (s : t) (e : Event) : t :=
  match e with
  | RefreshNow => snd (refreshNow s)
  | Completed summary => complete summary s
  end.

Definition run (events : list Event) (s : t) : t := fold_left step events s.

(** Aggregations in flight: started and not yet completed. *)
Definition in_flight (s : t) : nat := started s - List.length (completed s).

(** The runs are numbered in the order they started and complete in
    that order; the run in flight, if any, is the latest. *)
Definition consistent (s : t) : Prop :=
  map fst (completed s) = rev (seq 0 (List.length (completed s)))
  /\ match phase s with
     | Idle => started s = List.length (completed s)
     | Running r => r = List.length (completed s) /\ started s = S r
     end.

(** A summary to complete a run with. *)
Definition some_summary : CollectionSummary :=
  {| snapshot := {| generated_at := None; packages := [] |};
     warnings := [] |}.

End RefreshScheduler.

(* ================================================================= *)
(** ** The command lines of a manager *)
(* ================================================================= *)

(** The command line of the inventory step of a manager's collector. *)
Definition list_command (m : PackageManager) : list jsstring :=
  match m with
  | brew => Js.lit "brew" :: brew_list_args
  | npm => Js.lit "npm" :: npm_list_args
  | pip => Js.lit "pip" :: pip_list_args
  end.

(** The command line of its outdated step. *)
Definition outdated_command (m : PackageManager) : list jsstring :=
  match m with
  | brew => Js.lit "brew" :: brew_outdated_args
  | npm => Js.lit "npm" :: npm_outdated_args
  | pip => Js.lit "pip" :: pip_outdated_args
  end.

(** What a collector has spawned when it is done: its inventory command,
    and its outdated command when it got that far. *)
Definition steps_spawned (m : PackageManager) (both : bool)
  : list (list jsstring) :=
  if both then [list_command m; outdated_command m] else [list_command m].

(** The result [res] of running manager [m]'s collector from [rt] has
    spawned the inventory command, then perhaps the outdated command, and
    nothing else; it returns after the inventory command alone only for
    Homebrew, and then without any record. *)
Definition ran_steps {P : Platform} (m : PackageManager) (rt : Runtime P)
    (res : Completion (list PackageRecord) * Runtime P) : Prop :=
  exists both,
    spawned (snd res) = spawned rt ++ steps_spawned m both
    /\ (both = false ->
        forall recs, fst res = Returned recs -> m = brew /\ recs = []).

(** A word of a listing: not empty, and without white space. *)
Definition token (s : jsstring) : Prop :=
  s <> [] /\ Forall (fun c => Js.is_space c = false) s.

(** The words of a line, as the loop of [collectBrew] splits it. *)
Definition words (line : jsstring) : list jsstring :=
  Js.split_ws (Js.trim line).

(** The entries of [items] whose key is [k], oldest first. *)
Definition entries_for {A} (key : A -> jsstring) (k : jsstring)
    (items : list A) : list A :=
  filter (fun e => Js.eqb (key e) k) items.

(* ================================================================= *)
(** ** What an outdated output reports *)
(* ================================================================= *)










(* ================================================================= *)
(** ** The terminal client ([main.ts]) *)
(* ================================================================= *)

Module Tui.

(** The reactive [state] of [setup]. *)
Record State := {
  summary : option CollectionSummary;
  snapshot_ : option InventorySnapshot;
  warnings_ : list CollectionWarning;
  error : option jsstring;
  loading : bool
}.

Definition initial : State :=
  {| summary := None; snapshot_ := None; warnings_ := []; error := None;
     loading := true |}.

(** [collectInventory().then(...).catch(...).finally(...)], once the
    promise has settled: the state the three callbacks leave.  Every value
    thrown is an [Error], so [catch] stores its [message]. *)
Definition setup {P : Platform} (rt : Runtime P) : State * Runtime P :=
  match collectInventory rt with
  | (Returned s, rt') =>
      ({| summary := Some s;
          snapshot_ := Some (snapshot s);
          warnings_ := warnings s;
          error := error initial;
          loading := false |}, rt')
  | (Thrown err, rt') =>
      ({| summary := summary initial;
          snapshot_ := snapshot_ initial;
          warnings_ := warnings_ initial;
          error := Some (message err);
          loading := false |}, rt')
  end.

(** [Record<PackageManager, PackageRecord[]>] *)
Record Grouped := {
  of_brew : list PackageRecord;
  of_npm : list PackageRecord;
  of_pip : list PackageRecord
}.

(** [base[pkg.manager].push(pkg)] *)
Definition push (base : Grouped) (pkg : PackageRecord) : Grouped :=
  match manager pkg with
  | brew => {| of_brew := of_brew base ++ [pkg]; of_npm := of_npm base;
               of_pip := of_pip base |}
  | npm => {| of_brew := of_brew base; of_npm := of_npm base ++ [pkg];
              of_pip := of_pip base |}
  | pip => {| of_brew := of_brew base; of_npm := of_npm base;
              of_pip := of_pip base ++ [pkg] |}
  end.

(** The computed [grouped]. *)
Definition grouped (st : State) : Grouped :=
  let base := {| of_brew := []; of_npm := []; of_pip := [] |} in
  match snapshot_ st with
  | None => base
  | Some s => fold_left push (packages s) base
  end.

(** What the template shows between its title and its closing line,
    which are always there: the loading line, the error line, or the
    dashboard, which is the box of warnings when there is any warning,
    and one box per key of [grouped], in the order of the keys. *)
Inductive View :=
| Collecting
| Failed (text : jsstring)
| Dashboard (warnings_box : option (list CollectionWarning))
            (boxes : list (PackageManager * list PackageRecord)).

(** The [v-if] / [v-else-if] / [v-else] chain of the template. *)
Definition view (st : State) : View :=
  if loading st then Collecting
  else if truthy_opt (error st) then
    Failed (match error st with Some text => text | None => [] end)
  else
    Dashboard
      (if (List.length (warnings_ st) =? 0)%nat then None
       else Some (warnings_ st))
      [ (brew, of_brew (grouped st)); (npm, of_npm (grouped st));
        (pip, of_pip (grouped st)) ].

End Tui.

(* ================================================================= *)
(** ** The desktop page ([+page.svelte]) *)
(* ================================================================= *)

Module Page.

(** The variables of the component. *)
Record State := {
  summary : option CollectionSummary;
  inventory : option InventorySnapshot;
  warnings_ : list CollectionWarning;
  error : option jsstring;
  isLoading : bool
}.

Definition initial : State :=
  {| summary := None; inventory := None; warnings_ := []; error := None;
     isLoading := true |}.

(** How [invoke("get_inventory")] settles: with a summary, or rejected
    with an [Error] or with a value that is no [Error]. *)
Inductive Invoked :=
| Resolved (s : CollectionSummary)
| RejectedError (e : JsError)
| RejectedValue.

(** The callback of [onMount]: its [try], [catch] and [finally]. *)
Definition onMount (r : Invoked) : State :=
  match r with
  | Resolved s =>
      {| summary := Some s;
         inventory := Some (snapshot s);
         warnings_ := warnings s;
         error := error initial;
         isLoading := false |}
  | RejectedError e =>
      {| summary := summary initial;
         inventory := inventory initial;
         warnings_ := warnings_ initial;
         error := Some (message e);
         isLoading := false |}
  | RejectedValue =>
      {| summary := summary initial;
         inventory := inventory initial;
         warnings_ := warnings_ initial;
         error := Some (Js.lit "Failed to load inventory");
         isLoading := false |}
  end.

(** [packagesByManager(manager)] on the component's [inventory]. *)
Definition packagesOf (st : State) (m : PackageManager)
  : list PackageRecord :=
  match inventory st with
  | Some s => packagesByManager s m
  | None => []
  end.

Definition allManagers : list PackageManager := [brew; npm; pip].

(** The markup of the component is not modelled: the block it opens
    with [{#if isLoading}] is closed with [{/else}]. *)

End Page.

(* ================================================================= *)
(** ** More scenarios *)
(* ================================================================= *)

Module Scenario.

Import Fixture.

(** Homebrew's listing fails; npm's outdated output is not JSON; pip's
    outdated step exits with 1. *)
Definition failing_steps : Tables :=
  {| processes :=
       [ (list_command brew,
          Exited 1 [] (lines ["Error: Unknown command: list"]));
         (list_command npm,
          Exited 0
            (json_text "{'dependencies':{'typescript':{'version':'5.5.2'}}}")
            []);
         (outdated_command npm, Exited 0 (Js.lit "npm warn") []);
         (list_command pip,
          Exited 0 (json_text "[{'name':'requests','version':'2.32.3'}]")
            []);
         (outdated_command pip,
          Exited 1 [] (lines ["ERROR: no network"])) ];
     clock := Js.lit "2025-10-05T12:34:56.000Z";
     brew_outdated_json := [];
     npm_tree_json :=
       [ ("{'dependencies':{'typescript':{'version':'5.5.2'}}}",
          {| dependencies :=
               Some [ (Js.lit "typescript",
                       Some {| dep_version := Some (Js.lit "5.5.2") |}) ] |})
       ];
     npm_outdated_json := [];
     pip_list_json :=
       [ ("[{'name':'requests','version':'2.32.3'}]",
          [ {| pip_name := Js.lit "requests";
               pip_version := Js.lit "2.32.3" |} ]) ];
     pip_outdated_json := [] |}.

(** The listings are not JSON for npm and pip; Homebrew has [wget] but
    its outdated output is not JSON. *)
Definition unparsable : Tables :=
  {| processes :=
       [ (list_command brew, Exited 0 (lines ["wget 1.24.5"]) []);
         (outdated_command brew, Exited 0 (Js.lit "Warning: no JSON") []);
         (list_command npm, Exited 0 (Js.lit "npm warn") []);
         (list_command pip, Exited 0 (Js.lit "WARNING: pip") []) ];
     clock := Js.lit "2025-10-05T12:34:56.000Z";
     brew_outdated_json := [];
     npm_tree_json := [];
     npm_outdated_json := [];
     pip_list_json := [];
     pip_outdated_json := [] |}.

(** Homebrew lists [python] with two installed versions and [wget] on two
    lines; npm has a dependency without a version and one that is
    [null]; pip lists [six] twice and its outdated output names it
    twice. *)
Definition duplicates : Tables :=
  {| processes :=
       [ (list_command brew,
          Exited 0
            (lines ["wget 1.24.4"; ""; "python 3.11.9 3.12.4"; "lonely";
                    "  wget   1.24.5  "]) []);
         (outdated_command brew, Exited 0 [] []);
         (list_command npm,
          Exited 0
            (json_text "{'dependencies':{'a':{},'b':null,'c':{'version':'1.0.0'}}}")
            []);
         (outdated_command npm, Exited 0 (json_text "{}") []);
         (list_command pip,
          Exited 0
            (json_text "[{'name':'six','version':'1.16.0'},{'name':'six','version':'1.15.0'}]")
            []);
         (outdated_command pip,
          Exited 0
            (json_text "[{'name':'six','latest_version':'1.17.0'},{'name':'six','latest_version':'1.18.0'}]")
            []) ];
     clock := Js.lit "2025-10-05T12:34:56.000Z";
     brew_outdated_json := [];
     npm_tree_json :=
       [ ("{'dependencies':{'a':{},'b':null,'c':{'version':'1.0.0'}}}",
          {| dependencies :=
               Some [ (Js.lit "a", Some {| dep_version := None |});
                      (Js.lit "b", None);
                      (Js.lit "c",
                       Some {| dep_version := Some (Js.lit "1.0.0") |}) ] |})
       ];
     npm_outdated_json := [ ("{}", []) ];
     pip_list_json :=
       [ ("[{'name':'six','version':'1.16.0'},{'name':'six','version':'1.15.0'}]",
          [ {| pip_name := Js.lit "six"; pip_version := Js.lit "1.16.0" |};
            {| pip_name := Js.lit "six"; pip_version := Js.lit "1.15.0" |} ])
       ];
     pip_outdated_json :=
       [ ("[{'name':'six','latest_version':'1.17.0'},{'name':'six','latest_version':'1.18.0'}]",
          [ {| pip_outdated_name := Js.lit "six";
               pip_latest_version := Js.lit "1.17.0" |};
            {| pip_outdated_name := Js.lit "six";
               pip_latest_version := Js.lit "1.18.0" |} ]) ] |}.

(** No manager is installed: every [Bun.spawn] throws. *)
Definition nothing_on_path : Tables :=
  {| processes := [];
     clock := Js.lit "2025-10-05T12:34:56.000Z";
     brew_outdated_json := [];
     npm_tree_json := [];
     npm_outdated_json := [];
     pip_list_json := [];
     pip_outdated_json := [] |}.

End Scenario.

(* ================================================================= *)
(** * Properties *)
(* ================================================================= *)

(** ** Strings and maps *)

Lemma Js_eqb_eq (a b : jsstring) : Js.eqb a b = true <-> a = b.
Proof.
  revert b; induction a as [|x a IH]; intros [|y b]; simpl;
    try (split; (discriminate || reflexivity)).
  rewrite andb_true_iff, N.eqb_eq, IH.
  split; [intros [-> ->]; reflexivity | intros [= -> ->]; auto].
Qed.

Lemma Js_eqb_refl (a : jsstring) : Js.eqb a a = true.
Proof. apply Js_eqb_eq; reflexivity. Qed.

Lemma Js_eqb_neq (a b : jsstring) : Js.eqb a b = false <-> a <> b.
Proof.
  rewrite <- Js_eqb_eq. destruct (Js.eqb a b); split; congruence.
Qed.

Lemma truthy_opt_Some (v : option jsstring) :
  truthy_opt v = true -> exists s, v = Some s /\ Js.truthy s = true.
Proof. destruct v as [s|]; simpl; [eauto | discriminate]. Qed.

Section MapValues.

Variable Q : jsstring -> Prop.

Lemma JsMap_set_values k v m :
  Q v -> Forall Q (map snd m) -> Forall Q (map snd (JsMap.set k v m)).
Proof.
  intros Hv. induction m as [|[k' v'] m IH]; simpl; intros Hm.
  - constructor; auto.
  - inversion Hm; subst. destruct (Js.eqb k' k); simpl; constructor; auto.
Qed.

Lemma JsMap_get_values k v m :
  Forall Q (map snd m) -> JsMap.get k m = Some v -> Q v.
Proof.
  induction m as [|[k' v'] m IH]; simpl; intros Hm Hg; [discriminate|].
  inversion Hm; subst. destruct (Js.eqb k' k); [congruence | auto].
Qed.

End MapValues.

(** ** [runCommand] *)

Lemma includes_In (codes : list Z) (c : Z) :
  includes codes c = true <-> In c codes.
Proof.
  unfold includes. rewrite existsb_exists. split.
  - intros (x & Hx & E). apply Z.eqb_eq in E. subst; auto.
  - intros H. exists c. split; [auto | apply Z.eqb_refl].
Qed.

(** What one call of [runCommand] does, in full. *)
Lemma runCommand_run (P : Platform) program args allowedExitCodes
    (rt : Runtime P) :
  runCommand program args allowedExitCodes rt
  = (match fst (Bun_spawn P (program :: args) (world rt)) with
     | Exited c out err =>
         if includes (allowed_or_default allowedExitCodes) c
         then Returned {| code := c; stdout := out; stderr := err |}
         else Thrown (Error (command_failure_message program args c err))
     | SpawnFailed e => Thrown e
     end,
     {| world := snd (Bun_spawn P (program :: args) (world rt));
        spawned := spawned rt ++ [program :: args] |}).
Proof.
  unfold runCommand, bind, spawn.
  destruct (Bun_spawn P (program :: args) (world rt)) as [[c out err|e] w'];
    simpl; [|reflexivity].
  destruct (includes _ c); reflexivity.
Qed.

(** C4.  When the child process exits with [c], having written [out] and
    [err]: [runCommand] returns [{ code: c, stdout: out, stderr: err }]
    exactly when [c] is among the allowed exit codes ([[0]] when the
    argument is left out), and otherwise throws the error whose message
    carries the program, the arguments, the exit code and the trimmed
    standard error; it throws if and only if [c] is not allowed. *)
Theorem runCommand_contract (P : Platform) program args allowedExitCodes
    (rt : Runtime P) c out err w' :
  Bun_spawn P (program :: args) (world rt) = (Exited c out err, w') ->
  let allowed := match allowedExitCodes with
                 | Some codes => codes
                 | None => [0%Z]
                 end in
  let result := fst (runCommand program args allowedExitCodes rt) in
  (In c allowed ->
   result = Returned {| code := c; stdout := out; stderr := err |})
  /\ (~ In c allowed ->
      result = Thrown (Error (program ++ Js.lit " "
                                ++ Js.join (Js.lit " ") args
                                ++ Js.lit " failed (exit " ++ Js.of_Z c
                                ++ Js.lit "): " ++ Js.trim err)))
  /\ ((exists e, result = Thrown e) <-> ~ In c allowed)
  /\ snd (runCommand program args allowedExitCodes rt)
     = {| world := w'; spawned := spawned rt ++ [program :: args] |}.
Proof.
  intros Hs allowed result. subst result.
  change allowed with (allowed_or_default allowedExitCodes) in *.
  rewrite runCommand_run, Hs. cbn [fst snd].
  set (codes := allowed_or_default allowedExitCodes).
  destruct (includes codes c) eqn:E.
  - apply includes_In in E. repeat split; try tauto.
    + intros [e He]. discriminate.
  - assert (N : ~ In c codes)
      by (intros H; apply includes_In in H; congruence).
    repeat split; try tauto.
    intros _. eexists; reflexivity.
Qed.

(** C4 at work: in the scenario [npm outdated -g --json] exits with 1;
    with the allow-list [[0; 1]] the call returns and with the default it
    throws. *)
Lemma runCommand_contract_witness :
  fst (runCommand (Js.lit "npm") npm_outdated_args (Some [0%Z; 1%Z])
         (Fixture.start Fixture.demo))
  = Returned {| code := 1;
                stdout := Fixture.json_text "{'typescript':{'latest':'5.6.3'}}";
                stderr := [] |}
  /\ fst (runCommand (Js.lit "npm") npm_outdated_args None
            (Fixture.start Fixture.demo))
     = Thrown (Error (Js.lit "npm outdated -g --json failed (exit 1): ")).
Proof.
  pose proof (@runCommand_contract (Fixture.platform Fixture.demo)
                (Js.lit "npm") npm_outdated_args (Some [0%Z; 1%Z])
                (Fixture.start Fixture.demo) 1%Z
                (Fixture.json_text "{'typescript':{'latest':'5.6.3'}}")
                [] tt eq_refl) as H1.
  pose proof (@runCommand_contract (Fixture.platform Fixture.demo)
                (Js.lit "npm") npm_outdated_args None
                (Fixture.start Fixture.demo) 1%Z
                (Fixture.json_text "{'typescript':{'latest':'5.6.3'}}")
                [] tt eq_refl) as H2.
  cbv zeta in H1, H2.
  destruct H1 as [H1 _]. destruct H2 as [_ [H2 _]].
  split.
  - apply H1. right; left; reflexivity.
  - apply H2. intros [E|[]]. discriminate E.
Defined.

(** ** Reading a run that returned *)

Section Inversion.

Variable P : Platform.

Lemma bind_returned {A B} (c : Async P A) (k : A -> Async P B) rt b rt2 :
  bind c k rt = (Returned b, rt2) ->
  exists a rt1, c rt = (Returned a, rt1) /\ k a rt1 = (Returned b, rt2).
Proof.
  unfold bind. destruct (c rt) as [[a|e] rt1]; intros H;
    [eauto | discriminate].
Qed.

Lemma ret_returned {A} (a b : A) (rt rt' : Runtime P) :
  ret a rt = (Returned b, rt') -> a = b /\ rt = rt'.
Proof. unfold ret. intros [= -> ->]. auto. Qed.

Lemma parse_or_throw_returned {T} (parse : Parser T) prefix text
    (rt rt' : Runtime P) v :
  parse_or_throw parse prefix text rt = (Returned v, rt') ->
  parse text = inr v /\ rt = rt'.
Proof.
  unfold parse_or_throw, ret, throw.
  destruct (parse text); intros [= ]; subst; auto.
Qed.

Lemma runCommand_returned program args allowed (rt rt' : Runtime P) r :
  runCommand program args allowed rt = (Returned r, rt') ->
  Bun_spawn P (program :: args) (world rt)
  = (Exited (code r) (stdout r) (stderr r), world rt')
  /\ includes (allowed_or_default allowed) (code r) = true
  /\ spawned rt' = spawned rt ++ [program :: args].
Proof.
  rewrite runCommand_run.
  destruct (Bun_spawn P (program :: args) (world rt)) as [[c out err|e] w'];
    cbn [fst snd]; [|discriminate].
  destruct (includes _ c) eqn:E; [|discriminate].
  intros [= <- <-]. cbn. auto.
Qed.

End Inversion.

Ltac invert_run :=
  repeat match goal with
    | H : bind _ _ _ = (Returned _, _) |- _ =>
        apply bind_returned in H; destruct H as (? & ? & ? & H)
    | H : ret _ _ = (Returned _, _) |- _ =>
        apply ret_returned in H; destruct H as [? ?]; subst
    | H : parse_or_throw _ _ _ _ = (Returned _, _) |- _ =>
        apply parse_or_throw_returned in H; destruct H as [? ?]; subst
    | H : runCommand _ _ _ _ = (Returned _, _) |- _ =>
        apply runCommand_returned in H; destruct H as (? & ? & ?)
    | H : (if ?b then _ else _) _ = (Returned _, _) |- _ =>
        destruct b eqn:?
    end.

(** ** The maps of latest versions *)

Lemma brew_outdated_map_truthy parsed : all_truthy (brew_outdated_map parsed).
Proof.
  unfold brew_outdated_map, all_truthy.
  generalize (match formulae parsed with Some fs => fs | None => [] end).
  intros fs.
  assert (G : forall m, all_truthy m ->
                        all_truthy (fold_left brew_outdated_step fs m)).
  { induction fs as [|f fs IH]; simpl; intros m Hm; [assumption|].
    apply IH. unfold brew_outdated_step.
    destruct (Js.truthy (formula_name f)); simpl; [|assumption].
    destruct (truthy_opt _) eqn:E; [|assumption].
    apply truthy_opt_Some in E. destruct E as (s & -> & Hs).
    apply JsMap_set_values; assumption. }
  apply G. constructor.
Qed.

Lemma npm_outdated_map_truthy parsed : all_truthy (npm_outdated_map parsed).
Proof.
  unfold npm_outdated_map.
  assert (G : forall m, all_truthy m ->
                        all_truthy (fold_left npm_outdated_step parsed m)).
  { induction parsed as [|[n d] ps IH]; simpl; intros m Hm; [assumption|].
    apply IH. destruct (truthy_opt (latest d)) eqn:E; [|assumption].
    apply truthy_opt_Some in E. destruct E as (s & -> & Hs).
    apply JsMap_set_values; assumption. }
  apply G. constructor.
Qed.

(** ** The records of each collector *)

Lemma collectBrew_returned (P : Platform) (rt rt' : Runtime P) recs :
  collectBrew rt = (Returned recs, rt') ->
  exists outdatedMap installed,
    recs = map (brew_record outdatedMap) installed
    /\ all_truthy outdatedMap.
Proof.
  unfold collectBrew. intros H. invert_run.
  - exists [], []. split; [reflexivity | constructor].
  - eexists _, _. split; [reflexivity|]. apply brew_outdated_map_truthy.
  - eexists _, _. split; [reflexivity|]. constructor.
Qed.

Lemma collectNpm_returned (P : Platform) (rt rt' : Runtime P) recs :
  collectNpm rt = (Returned recs, rt') ->
  exists outdatedMap dependencies_,
    recs = fold_left (npm_packages_step outdatedMap) dependencies_ []
    /\ all_truthy outdatedMap.
Proof.
  unfold collectNpm. intros H. invert_run.
  - eexists _, _. split; [reflexivity|]. apply npm_outdated_map_truthy.
  - eexists _, _. split; [reflexivity|]. constructor.
Qed.

Lemma collectPip_returned (P : Platform) (rt rt' : Runtime P) recs :
  collectPip rt = (Returned recs, rt') ->
  exists outdatedMap installed,
    recs = map (pip_record outdatedMap) installed.
Proof.
  unfold collectPip. intros H. invert_run; eexists _, _; reflexivity.
Qed.

(** A property of every record [npm_record] builds holds of everything
    the loop of [collectNpm] pushes. *)
Lemma npm_packages_Forall (Q : PackageRecord -> Prop) outdatedMap :
  (forall n v, Q (npm_record outdatedMap n v)) ->
  forall deps acc, Forall Q acc ->
    Forall Q (fold_left (npm_packages_step outdatedMap) deps acc).
Proof.
  intros HQ. induction deps as [|[n pkg] deps IH]; simpl; intros acc Hacc;
    [assumption|].
  apply IH. destruct pkg as [p|]; [|assumption].
  destruct (dep_version p) as [v|]; [|assumption].
  destruct (Js.truthy v); simpl; [|assumption].
  apply Forall_app. split; [assumption | constructor; auto].
Qed.

(** ** The commands a run spawns *)

Section Spawned.

Variable P : Platform.
Variable allowed : list (list jsstring).

Lemma spawns_only_ret {A} (a : A) : spawns_only allowed (@ret P A a).
Proof.
  intros rt. exists []. rewrite app_nil_r. split; [reflexivity|].
  intros x [].
Qed.

Lemma spawns_only_throw {A} e : spawns_only allowed (@throw P A e).
Proof.
  intros rt. exists []. rewrite app_nil_r. split; [reflexivity|].
  intros x [].
Qed.

Lemma spawns_only_bind {A B} (c : Async P A) (k : A -> Async P B) :
  spawns_only allowed c -> (forall a, spawns_only allowed (k a)) ->
  spawns_only allowed (bind c k).
Proof.
  intros Hc Hk rt. unfold bind.
  destruct (Hc rt) as (l1 & E1 & I1).
  destruct (c rt) as [[a|e] rt1]; cbn [snd] in *.
  - destruct (Hk a rt1) as (l2 & E2 & I2).
    exists (l1 ++ l2). rewrite E2, E1, app_assoc.
    split; [reflexivity | apply incl_app; assumption].
  - exists l1. auto.
Qed.

Lemma spawns_only_try_catch {A} (c : Async P A) (h : JsError -> Async P A) :
  spawns_only allowed c -> (forall e, spawns_only allowed (h e)) ->
  spawns_only allowed (try_catch c h).
Proof.
  intros Hc Hh rt. unfold try_catch.
  destruct (Hc rt) as (l1 & E1 & I1).
  destruct (c rt) as [[a|e] rt1]; cbn [snd] in *.
  - exists l1. auto.
  - destruct (Hh e rt1) as (l2 & E2 & I2).
    exists (l1 ++ l2). rewrite E2, E1, app_assoc.
    split; [reflexivity | apply incl_app; assumption].
Qed.

Lemma spawns_only_if {A} (b : bool) (c1 c2 : Async P A) :
  spawns_only allowed c1 -> spawns_only allowed c2 ->
  spawns_only allowed (if b then c1 else c2).
Proof. destruct b; auto. Qed.

Lemma spawns_only_parse {T} (parse : Parser T) prefix text :
  spawns_only allowed (@parse_or_throw P T parse prefix text).
Proof.
  unfold parse_or_throw. destruct (parse text);
    [apply spawns_only_throw | apply spawns_only_ret].
Qed.

Lemma spawns_only_runCommand program args codes :
  In (program :: args) allowed ->
  spawns_only allowed (@runCommand P program args codes).
Proof.
  intros Hin rt. rewrite runCommand_run. cbn [snd spawned].
  exists [program :: args]. split; [reflexivity|].
  intros x [<-|[]]. assumption.
Qed.

Lemma spawns_only_now : spawns_only allowed (@now P).
Proof.
  intros rt. unfold now. destruct (Date_toISOString P (world rt)).
  cbn [snd spawned]. exists []. rewrite app_nil_r.
  split; [reflexivity | intros x []].
Qed.

End Spawned.

Ltac spawns_only_tac :=
  repeat first
    [ apply spawns_only_ret
    | apply spawns_only_throw
    | apply spawns_only_parse
    | apply spawns_only_now
    | (apply spawns_only_runCommand; unfold command_lines; simpl; tauto)
    | (apply spawns_only_bind; [|intros ?])
    | (apply spawns_only_try_catch; [|intros ?])
    | apply spawns_only_if ].

Lemma collectBrew_spawns (P : Platform) :
  spawns_only command_lines (@collectBrew P).
Proof. unfold collectBrew. spawns_only_tac. Qed.

Lemma collectNpm_spawns (P : Platform) :
  spawns_only command_lines (@collectNpm P).
Proof. unfold collectNpm. spawns_only_tac. Qed.

Lemma collectPip_spawns (P : Platform) :
  spawns_only command_lines (@collectPip P).
Proof. unfold collectPip. spawns_only_tac. Qed.

Lemma collectInventory_spawns (P : Platform) :
  spawns_only command_lines (@collectInventory P).
Proof.
  unfold collectInventory, handlers, for_of, handle; cbn [runner].
  spawns_only_tac;
    first [apply collectBrew_spawns | apply collectNpm_spawns
          | apply collectPip_spawns].
Qed.

(** ** [collectInventory], run in full *)

(** The summary [collectInventory] returns, read off the outcomes of the
    three collectors. *)
Lemma collectInventory_run (P : Platform) (rt : Runtime P) :
  collectInventory rt
  = (Returned
       {| snapshot :=
            {| generated_at := Some (fst (Date_toISOString P (world rt)));
               packages := outcome_packages (outcome rt brew)
                           ++ outcome_packages (outcome rt npm)
                           ++ outcome_packages (outcome rt pip) |};
          warnings := outcome_warnings brew (outcome rt brew)
                      ++ outcome_warnings npm (outcome rt npm)
                      ++ outcome_warnings pip (outcome rt pip) |},
     snd (collectPip (before pip rt))).
Proof.
  unfold outcome, before, collector, collectInventory, handlers, for_of,
    handle, try_catch, bind, ret, now, push_packages, push_warning.
  destruct (Date_toISOString P (world rt)) as [ts w0].
  cbn [fst snd runner handler_manager snapshot warnings packages
       generated_at].
  destruct (collectBrew _) as [[b|eb] rt1];
    cbn [fst snd outcome_packages outcome_warnings app snapshot warnings
         packages generated_at];
  destruct (collectNpm rt1) as [[n|en] rt2];
    cbn [fst snd outcome_packages outcome_warnings app snapshot warnings
         packages generated_at];
  destruct (collectPip rt2) as [[p|ep] rt3];
    cbn [fst snd outcome_packages outcome_warnings app snapshot warnings
         packages generated_at];
  rewrite ?app_nil_r, <- ?app_assoc; reflexivity.
Qed.

(** Every record a collector returns carries that collector's manager. *)
Lemma collector_manager (P : Platform) m (rt : Runtime P) :
  Forall (fun r => manager r = m) (outcome_packages (fst (collector m rt))).
Proof.
  destruct (collector m rt) as [[recs|e] rt'] eqn:E; cbn [fst outcome_packages];
    [|constructor].
  destruct m; cbn [collector] in E.
  - apply collectBrew_returned in E. destruct E as (om & ins & -> & _).
    apply Forall_forall. intros r Hr. apply in_map_iff in Hr.
    destruct Hr as ([n v] & <- & _). reflexivity.
  - apply collectNpm_returned in E. destruct E as (om & deps & -> & _).
    apply npm_packages_Forall; [reflexivity | constructor].
  - apply collectPip_returned in E. destruct E as (om & ins & ->).
    apply Forall_forall. intros r Hr. apply in_map_iff in Hr.
    destruct Hr as (pkg & <- & _). reflexivity.
Qed.

Lemma filter_manager_same m (rs : list PackageRecord) :
  Forall (fun r => manager r = m) rs ->
  filter (fun pkg => PackageManager_eqb (manager pkg) m) rs = rs.
Proof.
  induction 1 as [|r rs Hr _ IH]; simpl; [reflexivity|].
  rewrite Hr, IH. destruct m; reflexivity.
Qed.

Lemma filter_manager_other m m' (rs : list PackageRecord) :
  m <> m' ->
  Forall (fun r => manager r = m) rs ->
  filter (fun pkg => PackageManager_eqb (manager pkg) m') rs = [].
Proof.
  intros N. induction 1 as [|r rs Hr _ IH]; simpl; [reflexivity|].
  rewrite Hr, IH. destruct m, m'; try reflexivity; congruence.
Qed.

(** The three blocks of a summary are what [packagesByManager] finds. *)
Lemma packagesByManager_blocks (b n p : list PackageRecord) ts :
  Forall (fun r => manager r = brew) b ->
  Forall (fun r => manager r = npm) n ->
  Forall (fun r => manager r = pip) p ->
  let s := {| generated_at := ts; packages := b ++ n ++ p |} in
  packagesByManager s brew = b /\ packagesByManager s npm = n
  /\ packagesByManager s pip = p.
Proof.
  intros Hb Hn Hp s. unfold packagesByManager, s. cbn [packages].
  rewrite !filter_app.
  rewrite (filter_manager_same Hb), (filter_manager_same Hn),
    (filter_manager_same Hp).
  rewrite (@filter_manager_other brew npm b), (@filter_manager_other brew pip b),
    (@filter_manager_other npm brew n), (@filter_manager_other npm pip n),
    (@filter_manager_other pip brew p), (@filter_manager_other pip npm p);
    try assumption; try discriminate.
  rewrite !app_nil_r. auto.
Qed.

(** ** The status of a record *)





(** ** Install dates *)

Lemma collector_installed_at (P : Platform) m (rt : Runtime P) :
  Forall (fun r => installed_at r = None)
    (outcome_packages (fst (collector m rt))).
Proof.
  destruct (collector m rt) as [[recs|e] rt'] eqn:E;
    cbn [fst outcome_packages]; [|constructor].
  destruct m; cbn [collector] in E.
  - apply collectBrew_returned in E. destruct E as (om & ins & -> & _).
    apply Forall_forall. intros r Hr. apply in_map_iff in Hr.
    destruct Hr as ([n v] & <- & _). reflexivity.
  - apply collectNpm_returned in E. destruct E as (om & deps & -> & _).
    apply npm_packages_Forall; [reflexivity | constructor].
  - apply collectPip_returned in E. destruct E as (om & ins & ->).
    apply Forall_forall. intros r Hr. apply in_map_iff in Hr.
    destruct Hr as (pkg & <- & _). reflexivity.
Qed.

(** C10.  Every record a collector returns has [installed_at = null], so
    has every record of the snapshot [collectInventory] returns; and a
    run of [collectInventory] spawns nothing but the six command lines of
    the collectors: no install date is looked up anywhere. *)
Theorem installed_at_is_null (P : Platform) (rt : Runtime P) :
  (forall m recs rt',
      collector m rt = (Returned recs, rt') ->
      Forall (fun r => installed_at r = None) recs)
  /\ exists summary rt',
      collectInventory rt = (Returned summary, rt')
      /\ Forall (fun r => installed_at r = None)
           (packages (snapshot summary))
      /\ forall argv,
          In argv (spawned rt') ->
          In argv (spawned rt) \/ In argv command_lines.
Proof.
  split.
  - intros m recs rt' E.
    pose proof (collector_installed_at m rt) as H. rewrite E in H. exact H.
  - rewrite collectInventory_run. eexists _, _. split; [reflexivity|].
    cbn [snapshot packages]. split.
    + unfold outcome. rewrite !Forall_app.
      repeat split; apply collector_installed_at.
    + intros argv Hin.
      destruct (collectInventory_spawns (P:=P) rt) as (l & E & I).
      rewrite collectInventory_run in E. cbn [snd] in E.
      rewrite E in Hin. apply in_app_or in Hin.
      destruct Hin as [H|H]; [left; assumption | right; apply I; assumption].
Qed.

(** C10 at work: the three records of the scenario, none with an install
    date, after six spawns. *)
Lemma installed_at_is_null_witness :
  exists rt',
    collectInventory (Fixture.start Fixture.demo)
    = (Returned
         {| snapshot :=
              {| generated_at := Some (Js.lit "2025-10-05T12:34:56.000Z");
                 packages :=
                   [Fixture.wget; Fixture.typescript; Fixture.requests] |};
            warnings := [] |}, rt')
    /\ map installed_at [Fixture.wget; Fixture.typescript; Fixture.requests]
       = [None; None; None]
    /\ spawned rt' = command_lines.
Proof.
  destruct (installed_at_is_null (Fixture.start Fixture.demo))
    as [_ (summary & rt' & E & _ & _)].
  exists rt'. vm_compute in E. injection E as <- <-.
  repeat split.
Defined.

(** ** Isolation of failures and order of the packages *)

Lemma outcome_manager (P : Platform) (rt : Runtime P) m :
  Forall (fun r => manager r = m) (outcome_packages (outcome rt m)).
Proof. apply collector_manager. Qed.

Lemma outcome_warnings_managers (P : Platform) (rt : Runtime P) m :
  map warn_manager (outcome_warnings m (outcome rt m))
  = if failed (outcome rt m) then [m] else [].
Proof. destruct (outcome rt m); reflexivity. Qed.

Lemma failed_no_packages (c : Completion (list PackageRecord)) :
  failed c = true -> outcome_packages c = [].
Proof. destruct c; [discriminate | reflexivity]. Qed.

Lemma outcome_packages_not_failed (P : Platform) (rt : Runtime P) m :
  Forall (fun r => failed (outcome rt (manager r)) = false)
    (outcome_packages (outcome rt m)).
Proof.
  pose proof (outcome_manager rt m) as Hm.
  destruct (outcome rt m) as [recs|e] eqn:E; cbn [outcome_packages] in *;
    [|constructor].
  eapply Forall_impl; [|exact Hm]. cbn beta. intros r Hr.
  rewrite Hr, E. reflexivity.
Qed.

(** C2.  [collectInventory] always returns a summary.  Its packages are
    the records of the collectors that returned, those of a collector
    that threw being none; its warnings are one per collector that threw,
    naming its manager, in the order of the managers; no record is of a
    manager whose collector threw.  When all three throw, the snapshot is
    empty and there are three warnings; when exactly one throws, there is
    exactly one warning, naming it, and every record is of another
    manager. *)
Theorem collectInventory_isolation (P : Platform) (rt : Runtime P) :
  exists summary rt',
    collectInventory rt = (Returned summary, rt')
    /\ packages (snapshot summary)
       = outcome_packages (outcome rt brew)
         ++ outcome_packages (outcome rt npm)
         ++ outcome_packages (outcome rt pip)
    /\ (forall m, failed (outcome rt m) = true ->
                  outcome_packages (outcome rt m) = [])
    /\ map warn_manager (warnings summary)
       = filter (fun m => failed (outcome rt m)) [brew; npm; pip]
    /\ Forall (fun r => failed (outcome rt (manager r)) = false)
         (packages (snapshot summary))
    /\ (failed (outcome rt brew) = true -> failed (outcome rt npm) = true ->
        failed (outcome rt pip) = true ->
        packages (snapshot summary) = []
        /\ map warn_manager (warnings summary) = [brew; npm; pip])
    /\ (forall m,
          filter (fun m' => failed (outcome rt m')) [brew; npm; pip] = [m] ->
          (exists w, warnings summary = [w] /\ warn_manager w = m)
          /\ Forall (fun r => manager r <> m) (packages (snapshot summary))).
Proof.
  rewrite collectInventory_run. eexists _, _. split; [reflexivity|].
  cbn [snapshot packages warnings].
  assert (W : map warn_manager
                (outcome_warnings brew (outcome rt brew)
                 ++ outcome_warnings npm (outcome rt npm)
                 ++ outcome_warnings pip (outcome rt pip))
              = filter (fun m => failed (outcome rt m)) [brew; npm; pip]).
  { rewrite !map_app, !outcome_warnings_managers. cbn [filter].
    destruct (failed (outcome rt brew)), (failed (outcome rt npm)),
      (failed (outcome rt pip)); reflexivity. }
  assert (F : Forall (fun r => failed (outcome rt (manager r)) = false)
                (outcome_packages (outcome rt brew)
                 ++ outcome_packages (outcome rt npm)
                 ++ outcome_packages (outcome rt pip))).
  { rewrite !Forall_app.
    repeat split; apply outcome_packages_not_failed. }
  split; [reflexivity|].
  split; [intros m; apply failed_no_packages|].
  split; [exact W|].
  split; [exact F|].
  split.
  - intros Hb Hn Hp.
    rewrite (failed_no_packages _ Hb), (failed_no_packages _ Hn),
      (failed_no_packages _ Hp).
    split; [reflexivity|]. rewrite W. cbn [filter].
    rewrite Hb, Hn, Hp. reflexivity.
  - intros m Hone. split.
    + rewrite Hone in W.
      destruct (outcome_warnings brew (outcome rt brew)
                ++ outcome_warnings npm (outcome rt npm)
                ++ outcome_warnings pip (outcome rt pip)) as [|w [|w' ws]];
        try discriminate W.
      exists w. split; [reflexivity|]. injection W as W. exact W.
    + eapply Forall_impl; [|exact F]. cbn beta. intros r Hr Em.
      rewrite Em in Hr.
      assert (Hin : In m (filter (fun m' => failed (outcome rt m'))
                            [brew; npm; pip]))
        by (rewrite Hone; left; reflexivity).
      apply filter_In in Hin. destruct Hin as [_ Hf]. congruence.
Qed.

(** C2 at work: [npm outdated] fails, so there is one warning, for npm,
    and the only record is pip's. *)
Lemma collectInventory_isolation_witness :
  exists summary rt',
    collectInventory (Fixture.start Fixture.npm_nothing_installed)
    = (Returned summary, rt')
    /\ packages (snapshot summary) = [Fixture.requests]
    /\ map warn_manager (warnings summary) = [npm].
Proof.
  destruct (collectInventory_isolation
              (Fixture.start Fixture.npm_nothing_installed))
    as (summary & rt' & E & Hp & _ & Hw & _).
  exists summary, rt'. split; [exact E|].
  split; [rewrite Hp | rewrite Hw]; vm_compute; reflexivity.
Defined.

(** C7.  The packages of the snapshot are three blocks in the order of
    the managers: what [collectBrew] returned, then what [collectNpm]
    returned, then what [collectPip] returned, each in the order its
    collector gave it and whole; every record of a block is of that
    block's manager, so the block of a manager is what [packagesByManager]
    finds for it. *)
Theorem collectInventory_order (P : Platform) (rt : Runtime P) :
  exists summary rt',
    collectInventory rt = (Returned summary, rt')
    /\ packages (snapshot summary)
       = outcome_packages (outcome rt brew)
         ++ outcome_packages (outcome rt npm)
         ++ outcome_packages (outcome rt pip)
    /\ (forall m, Forall (fun r => manager r = m)
                    (outcome_packages (outcome rt m)))
    /\ (forall m, packagesByManager (snapshot summary) m
                  = outcome_packages (outcome rt m)).
Proof.
  rewrite collectInventory_run. eexists _, _. split; [reflexivity|].
  cbn [snapshot packages]. split; [reflexivity|].
  split; [intros m; apply outcome_manager|].
  intros m.
  destruct (packagesByManager_blocks
              (Some (fst (Date_toISOString P (world rt))))
              (outcome_manager rt brew) (outcome_manager rt npm)
              (outcome_manager rt pip)) as (Hb & Hn & Hp).
  destruct m; assumption.
Qed.

(** C7 at work: the scenario's packages are brew's, then npm's, then
    pip's. *)
Lemma collectInventory_order_witness :
  exists summary rt',
    collectInventory (Fixture.start Fixture.demo) = (Returned summary, rt')
    /\ packages (snapshot summary)
       = [Fixture.wget; Fixture.typescript; Fixture.requests].
Proof.
  destruct (collectInventory_order (Fixture.start Fixture.demo))
    as (summary & rt' & E & Hp & _).
  exists summary, rt'. split; [exact E|].
  rewrite Hp. vm_compute. reflexivity.
Defined.

(** ** Runs whose steps are known *)

Lemma runCommand_exited (P : Platform) program args allowed (rt : Runtime P)
    c out err w' :
  Bun_spawn P (program :: args) (world rt) = (Exited c out err, w') ->
  includes (allowed_or_default allowed) c = true ->
  runCommand program args allowed rt
  = (Returned {| code := c; stdout := out; stderr := err |},
     {| world := w'; spawned := spawned rt ++ [program :: args] |}).
Proof.
  intros Hs Hc. rewrite runCommand_run, Hs. cbn [fst snd].
  rewrite Hc. reflexivity.
Qed.

(** C5.  [collectNpm] passes [[0, 1]] as the allowed exit codes of its
    outdated step: when [npm ls] has succeeded and [npm outdated -g
    --json] exits with code 1 and a JSON body, the step does not throw,
    the map of latest versions is built from the body, and the collector
    returns the records annotated from it. *)
Theorem npm_outdated_exit_code_1 (P : Platform) (rt : Runtime P)
    out1 err1 w1 tree out2 err2 w2 body :
  Bun_spawn P (Js.lit "npm" :: npm_list_args) (world rt)
  = (Exited 0 out1 err1, w1) ->
  JSON_parse_NpmTree P out1 = inr tree ->
  Bun_spawn P (Js.lit "npm" :: npm_outdated_args) w1
  = (Exited 1 out2 err2, w2) ->
  Js.truthy (Js.trim out2) = true ->
  JSON_parse_NpmOutdated P out2 = inr body ->
  collectNpm rt
  = (Returned
       (fold_left (npm_packages_step (npm_outdated_map body))
          (match dependencies tree with Some d => d | None => [] end) []),
     {| world := w2;
        spawned := spawned rt ++ [Js.lit "npm" :: npm_list_args;
                                  Js.lit "npm" :: npm_outdated_args] |}).
Proof.
  intros H1 T H2 B J. unfold collectNpm, bind.
  rewrite (runCommand_exited _ _ None rt H1 eq_refl). cbn [stdout].
  unfold parse_or_throw at 1. rewrite T. unfold ret at 1.
  erewrite runCommand_exited; [|exact H2|reflexivity]. cbn [stdout].
  rewrite B. unfold parse_or_throw. rewrite J. unfold ret.
  cbn [spawned]. rewrite <- app_assoc. reflexivity.
Qed.

(** C5 at work: the scenario, where [npm outdated] exits with 1. *)
Lemma npm_outdated_exit_code_1_witness :
  fst (collectNpm (Fixture.start Fixture.demo))
  = Returned [Fixture.typescript].
Proof.
  rewrite (@npm_outdated_exit_code_1 (Fixture.platform Fixture.demo)
             (Fixture.start Fixture.demo)
             (Fixture.json_text
                "{'dependencies':{'typescript':{'version':'5.5.2'}}}")
             [] tt
             {| dependencies :=
                  Some [ (Js.lit "typescript",
                          Some {| dep_version := Some (Js.lit "5.5.2") |}) ]
             |}
             (Fixture.json_text "{'typescript':{'latest':'5.6.3'}}")
             [] tt
             [ (Js.lit "typescript", {| latest := Some (Js.lit "5.6.3") |}) ]
             eq_refl eq_refl eq_refl eq_refl eq_refl).
  reflexivity.
Defined.

(** C6.  When [pip list] has succeeded and the outdated step succeeds
    with nothing but white space on its standard output, [collectPip]
    returns one record per installed package, each with
    [latest_version = null] and status [current]. *)
Theorem pip_empty_outdated (P : Platform) (rt : Runtime P)
    out1 err1 w1 installed out2 err2 w2 :
  Bun_spawn P (Js.lit "pip" :: pip_list_args) (world rt)
  = (Exited 0 out1 err1, w1) ->
  JSON_parse_PipList P out1 = inr installed ->
  Bun_spawn P (Js.lit "pip" :: pip_outdated_args) w1
  = (Exited 0 out2 err2, w2) ->
  Js.trim out2 = [] ->
  exists recs,
    fst (collectPip rt) = Returned recs
    /\ map name recs = map pip_name installed
    /\ Forall (fun r => latest_version r = None /\ status r = current) recs.
Proof.
  intros H1 T H2 B. unfold collectPip, bind.
  rewrite (runCommand_exited _ _ None rt H1 eq_refl). cbn [stdout].
  unfold parse_or_throw at 1. rewrite T. unfold ret at 1.
  erewrite runCommand_exited; [|exact H2|reflexivity]. cbn [stdout].
  rewrite B. cbn [Js.truthy]. unfold ret. cbn [fst].
  eexists. split; [reflexivity|]. split.
  - rewrite map_map. reflexivity.
  - apply Forall_forall. intros r Hr. apply in_map_iff in Hr.
    destruct Hr as (pkg & <- & _). split; reflexivity.
Qed.

(** C6 at work: in the scenario pip's outdated step prints an empty
    line. *)
Lemma pip_empty_outdated_witness :
  exists recs,
    fst (collectPip (Fixture.start Fixture.demo)) = Returned recs
    /\ map name recs = [Js.lit "requests"]
    /\ Forall (fun r => latest_version r = None /\ status r = current) recs.
Proof.
  exact (@pip_empty_outdated (Fixture.platform Fixture.demo)
           (Fixture.start Fixture.demo)
           (Fixture.json_text "[{'name':'requests','version':'2.32.3'}]")
           [] tt
           [ {| pip_name := Js.lit "requests";
                pip_version := Js.lit "2.32.3" |} ]
           (Fixture.lines [""]) [] tt
           eq_refl eq_refl eq_refl eq_refl).
Defined.

(** ** An empty inventory *)

(** When [brew list --versions] lists nothing, [collectBrew] returns no
    record and spawns nothing else: its outdated step is not run. *)
Lemma collectBrew_nothing_installed (P : Platform) (rt : Runtime P)
    out err w1 :
  Bun_spawn P (Js.lit "brew" :: brew_list_args) (world rt)
  = (Exited 0 out err, w1) ->
  brew_installed out = [] ->
  collectBrew rt
  = (Returned [],
     {| world := w1;
        spawned := spawned rt ++ [Js.lit "brew" :: brew_list_args] |}).
Proof.
  intros H1 E. unfold collectBrew, bind.
  rewrite (runCommand_exited _ _ None rt H1 eq_refl). cbn [stdout].
  rewrite E. reflexivity.
Qed.

(** C3 fails for npm (and for pip, whose collector has the same shape).
    No global package is installed and [npm ls] succeeds; [collectNpm]
    spawns [npm outdated -g --json] all the same, and as that exits with
    2 the collector throws and [collectInventory] warns about npm. *)
Theorem collectNpm_empty_runs_outdated :
  let rt := Fixture.start Fixture.npm_nothing_installed in
  fst (runCommand (Js.lit "npm") npm_list_args None rt)
  = Returned {| code := 0; stdout := Fixture.json_text "{}"; stderr := [] |}
  /\ JSON_parse_NpmTree (Fixture.platform Fixture.npm_nothing_installed)
       (Fixture.json_text "{}")
     = inr {| dependencies := None |}
  /\ spawned (snd (collectNpm rt))
     = [Js.lit "npm" :: npm_list_args; Js.lit "npm" :: npm_outdated_args]
  /\ fst (collectNpm rt)
     = Thrown (Error (Js.lit "npm outdated -g --json failed (exit 2): npm error code ENOTFOUND"))
  /\ exists summary,
      fst (collectInventory rt) = Returned summary
      /\ map warn_manager (warnings summary) = [npm].
Proof.
  cbv zeta. repeat split; try (vm_compute; reflexivity).
  eexists. split; vm_compute; reflexivity.
Qed.

(** ** The wire document *)

Lemma status_wire_round_trip (s : PackageStatus) :
  Wire.status_of_wire (Wire.status_to_wire s) = Some s.
Proof. destruct s; reflexivity. Qed.

Lemma status_of_wire_inv (w : jsstring) (s : PackageStatus) :
  Wire.status_of_wire w = Some s -> Wire.status_to_wire s = w.
Proof.
  unfold Wire.status_of_wire.
  destruct (Js.eqb w (Js.lit "current")) eqn:E1;
    [apply Js_eqb_eq in E1; intros [= <-]; auto|].
  destruct (Js.eqb w (Js.lit "outdated")) eqn:E2;
    [apply Js_eqb_eq in E2; intros [= <-]; auto|].
  destruct (Js.eqb w (Js.lit "-")) eqn:E3;
    [apply Js_eqb_eq in E3; intros [= <-]; auto | discriminate].
Qed.

Lemma package_wire_round_trip (r : PackageRecord) :
  Wire.package_of_wire (manager r) (Wire.package_to_wire r) = Some r.
Proof.
  unfold Wire.package_of_wire, Wire.package_to_wire. cbn.
  rewrite status_wire_round_trip. destruct r; reflexivity.
Qed.

Lemma packages_wire_round_trip m (rs : list PackageRecord) :
  Forall (fun r => manager r = m) rs ->
  Wire.packages_of_wire m (map Wire.package_to_wire rs) = Some rs.
Proof.
  induction 1 as [|r rs Hr _ IH]; cbn [map Wire.packages_of_wire];
    [reflexivity|].
  rewrite <- Hr at 1. rewrite package_wire_round_trip, IH. reflexivity.
Qed.

Lemma packagesByManager_manager (s : InventorySnapshot) m :
  Forall (fun r => manager r = m) (packagesByManager s m).
Proof.
  apply Forall_forall. intros r Hr. apply filter_In in Hr.
  destruct Hr as [_ E]. destruct (manager r), m; (reflexivity || discriminate).
Qed.

(** What parsing a serialized snapshot gives, whatever the snapshot. *)
Lemma parse_serialize (s : InventorySnapshot) :
  Wire.parse (Wire.serialize s)
  = Some {| generated_at := generated_at s;
            packages := packagesByManager s brew ++ packagesByManager s npm
                        ++ packagesByManager s pip |}.
Proof.
  unfold Wire.parse, Wire.serialize.
  cbn [Wire.managers Wire.of_brew Wire.of_npm Wire.of_pip Wire.generatedAt].
  rewrite !packages_wire_round_trip by apply packagesByManager_manager.
  reflexivity.
Qed.

(** Every snapshot [collectInventory] returns is in manager enumeration
    order. *)
Lemma collectInventory_manager_ordered (P : Platform) (rt : Runtime P)
    summary rt' :
  collectInventory rt = (Returned summary, rt') ->
  Wire.manager_ordered (snapshot summary).
Proof.
  rewrite collectInventory_run. intros [= <- _].
  unfold Wire.manager_ordered. cbn [snapshot].
  destruct (packagesByManager_blocks
              (Some (fst (Date_toISOString P (world rt))))
              (outcome_manager rt brew) (outcome_manager rt npm)
              (outcome_manager rt pip)) as (Hb & Hn & Hp).
  cbv zeta in Hb, Hn, Hp. rewrite Hb, Hn, Hp. reflexivity.
Qed.

(** C8.  An InventorySnapshot has its packages in manager enumeration
    order (specification, section 3), and so has every snapshot
    [collectInventory] returns.  Serializing such a snapshot to the wire
    document and parsing the document back gives the snapshot again; and
    the statuses round-trip both ways, [unknown] being the literal
    [-]. *)
Theorem wire_round_trip :
  (forall s,
      Wire.manager_ordered s -> Wire.parse (Wire.serialize s) = Some s)
  /\ (forall (P : Platform) (rt rt' : Runtime P) summary,
        collectInventory rt = (Returned summary, rt') ->
        Wire.parse (Wire.serialize (snapshot summary))
        = Some (snapshot summary))
  /\ (forall st, Wire.status_of_wire (Wire.status_to_wire st) = Some st)
  /\ (forall w st, Wire.status_of_wire w = Some st ->
                   Wire.status_to_wire st = w)
  /\ Wire.status_to_wire unknown = Js.lit "-".
Proof.
  assert (R : forall s, Wire.manager_ordered s ->
                        Wire.parse (Wire.serialize s) = Some s).
  { intros [ts ps] E. rewrite parse_serialize.
    unfold Wire.manager_ordered in E. cbn [generated_at packages] in *.
    rewrite <- E. reflexivity. }
  split; [exact R|]. split.
  - intros P rt rt' summary E. apply R.
    eapply collectInventory_manager_ordered. exact E.
  - split; [exact status_wire_round_trip|].
    split; [exact status_of_wire_inv | reflexivity].
Qed.

(** C8 at work: a snapshot with a brew record of status [unknown] before
    an npm record: the status is written as [-], and the snapshot comes
    back. *)
Lemma wire_round_trip_witness :
  let s := {| generated_at := generated_at Wire.interleaved;
              packages := rev (packages Wire.interleaved) |} in
  map manager (packages s) = [brew; npm]
  /\ map Wire.pkg_status (Wire.of_brew (Wire.managers (Wire.serialize s)))
     = [Js.lit "-"]
  /\ Wire.parse (Wire.serialize s) = Some s.
Proof.
  intros s. split; [reflexivity|]. split; [reflexivity|].
  apply (proj1 wire_round_trip s). reflexivity.
Defined.

(** ** The refresh scheduler *)

Module SchedulerFacts.

Import RefreshScheduler.

Lemma init_consistent : consistent init.
Proof. split; reflexivity. Qed.

Lemma step_consistent (s : t) (e : Event) :
  consistent s -> consistent (step s e).
Proof.
  intros [Hc Hp]. destruct e as [|summary]; unfold step, refreshNow, complete.
  - destruct (phase s) as [|r] eqn:E; cbn [snd]; split;
      cbn [completed phase started]; rewrite ?E; auto.
  - destruct (phase s) as [|r] eqn:E; split;
      cbn [completed phase started map fst List.length]; rewrite ?E; auto.
    + destruct Hp as [-> _]. rewrite seq_S, rev_app_distr, <- Hc.
      reflexivity.
    + destruct Hp as [-> ->]. reflexivity.
Qed.

Lemma run_consistent (events : list Event) (s : t) :
  consistent s -> consistent (run events s).
Proof.
  revert s. induction events as [|e events IH]; intros s H; cbn; [exact H|].
  apply IH, step_consistent, H.
Qed.

Lemma consistent_in_flight (s : t) :
  consistent s ->
  in_flight s = match phase s with Idle => 0 | Running _ => 1 end.
Proof.
  intros [_ Hp]. unfold in_flight. destruct (phase s) as [|r].
  - lia.
  - destruct Hp as [-> ->]. lia.
Qed.

Lemma result_in_known done r summary :
  result_in done r = Some summary -> In r (map fst done).
Proof.
  induction done as [|[r' x] done IH]; cbn; [discriminate|].
  destruct (Nat.eqb r' r) eqn:E; [apply Nat.eqb_eq in E; auto | auto].
Qed.

(** What a caller was handed stays what it observes, whatever happens
    later. *)
Lemma result_is_kept (events : list Event) (s : t) r summary :
  consistent s ->
  result_of s r = Some summary ->
  result_of (run events s) r = Some summary.
Proof.
  revert s. induction events as [|e events IH]; intros s Hs Hr; cbn;
    [exact Hr|].
  apply IH; [apply step_consistent, Hs|].
  destruct e as [|x]; unfold step, refreshNow, complete.
  - destruct (phase s); exact Hr.
  - destruct (phase s) as [|r'] eqn:E; [exact Hr|].
    unfold result_of in *. cbn [completed result_in].
    destruct Hs as [Hc Hp]. rewrite E in Hp. destruct Hp as [-> _].
    pose proof (result_in_known _ _ Hr) as Hk. rewrite Hc in Hk.
    apply in_rev, in_seq in Hk.
    destruct (Nat.eqb_spec (List.length (completed s)) r); [lia | assumption].
Qed.

End SchedulerFacts.

(** C9.  In every state the scheduler can reach, at most one aggregation
    is in flight.  Two calls of [refreshNow()] with no completion between
    them are handed the same run and leave exactly one aggregation in
    flight; when a run is already in flight they are handed that run and
    start none.  Once the run completes, both callers observe its
    summary, which is the one stored as current, and go on observing it
    whatever happens later. *)
Theorem refreshNow_joins_run_in_flight (events : list RefreshScheduler.Event) :
  let s := RefreshScheduler.run events RefreshScheduler.init in
  let first := RefreshScheduler.refreshNow s in
  let second := RefreshScheduler.refreshNow (snd first) in
  RefreshScheduler.in_flight s <= 1
  /\ fst first = fst second
  /\ RefreshScheduler.in_flight (snd second) = 1
  /\ (forall r, RefreshScheduler.phase s = RefreshScheduler.Running r ->
        fst first = r
        /\ RefreshScheduler.started (snd second) = RefreshScheduler.started s)
  /\ (RefreshScheduler.phase s = RefreshScheduler.Idle ->
        RefreshScheduler.started (snd second)
        = S (RefreshScheduler.started s))
  /\ forall summary later,
       let done := RefreshScheduler.complete summary (snd second) in
       RefreshScheduler.current_summary done = Some summary
       /\ RefreshScheduler.result_of (RefreshScheduler.run later done)
            (fst first) = Some summary
       /\ RefreshScheduler.result_of (RefreshScheduler.run later done)
            (fst second) = Some summary.
Proof.
  intros s first second.
  pose proof (SchedulerFacts.run_consistent events
                SchedulerFacts.init_consistent) as Hs. fold s in Hs.
  assert (H1 : RefreshScheduler.consistent (snd first))
    by exact (SchedulerFacts.step_consistent
                RefreshScheduler.RefreshNow Hs).
  assert (H2 : RefreshScheduler.consistent (snd second))
    by exact (SchedulerFacts.step_consistent
                RefreshScheduler.RefreshNow H1).
  assert (Hsame : fst first = fst second
                  /\ RefreshScheduler.phase (snd second)
                     = RefreshScheduler.Running (fst first)).
  { subst first second. unfold RefreshScheduler.refreshNow.
    destruct (RefreshScheduler.phase s) as [|r] eqn:E; cbn; rewrite ?E; cbn;
      auto. }
  destruct Hsame as [Hsame Hrun].
  split; [rewrite (SchedulerFacts.consistent_in_flight Hs);
          destruct (RefreshScheduler.phase s); lia|].
  split; [exact Hsame|].
  split; [rewrite (SchedulerFacts.consistent_in_flight H2), Hrun;
          reflexivity|].
  split.
  { intros r E. subst first second. unfold RefreshScheduler.refreshNow.
    rewrite E. cbn. rewrite E. cbn. auto. }
  split.
  { intros E. subst first second. unfold RefreshScheduler.refreshNow.
    rewrite E. reflexivity. }
  intros summary later done.
  assert (Hd : RefreshScheduler.consistent done)
    by exact (SchedulerFacts.step_consistent
                (RefreshScheduler.Completed summary) H2).
  assert (Hr : RefreshScheduler.result_of done (fst first) = Some summary).
  { subst done. unfold RefreshScheduler.complete, RefreshScheduler.result_of.
    rewrite Hrun. cbn. rewrite Nat.eqb_refl. reflexivity. }
  split.
  { subst done. unfold RefreshScheduler.complete. rewrite Hrun. reflexivity. }
  split; [|rewrite <- Hsame];
    apply SchedulerFacts.result_is_kept; assumption.
Qed.

(** C9 at work: a run is started, then two more calls arrive before it
    completes; all are handed run 0, one aggregation was started, and
    both late callers observe its summary. *)
Lemma refreshNow_joins_run_in_flight_witness :
  let s := RefreshScheduler.run [RefreshScheduler.RefreshNow]
             RefreshScheduler.init in
  let first := RefreshScheduler.refreshNow s in
  let second := RefreshScheduler.refreshNow (snd first) in
  let done := RefreshScheduler.complete RefreshScheduler.some_summary
                (snd second) in
  fst first = 0 /\ fst second = 0
  /\ RefreshScheduler.started (snd second) = 1
  /\ RefreshScheduler.result_of done (fst first)
     = Some RefreshScheduler.some_summary
  /\ RefreshScheduler.result_of done (fst second)
     = Some RefreshScheduler.some_summary.
Proof.
  intros s first second done.
  destruct (refreshNow_joins_run_in_flight [RefreshScheduler.RefreshNow])
    as (_ & _ & _ & _ & _ & H).
  destruct (H RefreshScheduler.some_summary []) as (_ & Ha & Hb).
  repeat split; try reflexivity; assumption.
Defined.

(* ================================================================= *)
(** * More of the collectors *)
(* ================================================================= *)

(** ** Trimming and splitting *)

Lemma trimStart_hd s c t : Js.trimStart s = c :: t -> Js.is_space c = false.
Proof.
  induction s as [|x s IH]; simpl; [discriminate|].
  destruct (Js.is_space x) eqn:E; [exact IH|].
  intros [= <- _]. exact E.
Qed.

Lemma trimStart_suffix s : exists ws, s = ws ++ Js.trimStart s.
Proof.
  induction s as [|x s [ws IH]]; simpl; [exists []; reflexivity|].
  destruct (Js.is_space x).
  - exists (x :: ws). simpl. rewrite <- IH. reflexivity.
  - exists []. reflexivity.
Qed.

Lemma trimEnd_prefix s : exists ws, s = Js.trimEnd s ++ ws.
Proof.
  unfold Js.trimEnd. destruct (trimStart_suffix (rev s)) as [ws E].
  exists (rev ws). rewrite <- rev_app_distr, <- E, rev_involutive.
  reflexivity.
Qed.

Lemma trim_hd s c t : Js.trim s = c :: t -> Js.is_space c = false.
Proof.
  unfold Js.trim. intros E.
  destruct (trimEnd_prefix (Js.trimStart s)) as [ws Ew].
  rewrite E in Ew. simpl in Ew. eapply trimStart_hd. exact Ew.
Qed.

Lemma trim_last s : Js.trim s <> [] -> Js.is_space (last (Js.trim s) 0%N) = false.
Proof.
  unfold Js.trim, Js.trimEnd. intros N.
  destruct (Js.trimStart (rev (Js.trimStart s))) as [|c t] eqn:E;
    [contradiction N; reflexivity|].
  simpl. rewrite last_last. eapply trimStart_hd. exact E.
Qed.

Lemma split_ws_from_spaceless b s :
  Forall (Forall (fun c => Js.is_space c = false)) (Js.split_ws_from b s).
Proof.
  revert b. induction s as [|c s IH]; intros b; simpl.
  - repeat constructor.
  - destruct (Js.is_space c) eqn:E.
    + destruct b; [apply IH | constructor; [constructor | apply IH]].
    + specialize (IH false). destruct (Js.split_ws_from false s) as [|p r].
      * repeat constructor. exact E.
      * inversion IH; subst. constructor; [constructor|]; assumption.
Qed.

(** When the text ends with a code unit that is not white, no piece is
    empty, but for the first one when the text starts with white space. *)
Lemma split_ws_from_nonempty s : forall b,
  s <> [] -> Js.is_space (last s 0%N) = false ->
  match Js.split_ws_from b s with
  | p :: rest =>
      Forall (fun q => q <> []) rest
      /\ (b = true \/ Js.is_space (hd 0%N s) = false -> p <> [])
  | [] => False
  end.
Proof.
  induction s as [|c s IH]; intros b N L; [contradiction N; reflexivity|].
  destruct s as [|c' s'].
  - cbn [last] in L. simpl. rewrite L. split; [constructor | discriminate].
  - assert (N' : c' :: s' <> []) by discriminate.
    assert (L' : Js.is_space (last (c' :: s') 0%N) = false) by exact L.
    change (Js.split_ws_from b (c :: c' :: s'))
      with (if Js.is_space c then
              if b then Js.split_ws_from true (c' :: s')
              else [] :: Js.split_ws_from true (c' :: s')
            else match Js.split_ws_from false (c' :: s') with
                 | piece :: rest => (c :: piece) :: rest
                 | [] => [[c]]
                 end).
    destruct (Js.is_space c) eqn:E.
    + pose proof (IH true N' L') as H.
      destruct b.
      * destruct (Js.split_ws_from true (c' :: s')) as [|p r]; [exact H|].
        destruct H as [Hr Hp]. split; [exact Hr | intros _; apply Hp; auto].
      * destruct (Js.split_ws_from true (c' :: s')) as [|p r]; [contradiction|].
        destruct H as [Hr Hp]. split.
        -- constructor; [apply Hp; auto | exact Hr].
        -- cbn [hd]. intros [F|F]; congruence.
    + pose proof (IH false N' L') as H.
      destruct (Js.split_ws_from false (c' :: s')) as [|p r]; [contradiction|].
      destruct H as [Hr _]. split; [exact Hr | discriminate].
Qed.

(** The words of a line that is not blank are tokens. *)
Lemma words_tokens line :
  Js.trim line <> [] -> Forall token (words line).
Proof.
  intros N. unfold words, Js.split_ws.
  pose proof (split_ws_from_spaceless false (Js.trim line)) as Hs.
  pose proof (split_ws_from_nonempty false N (trim_last _ N)) as Hn.
  destruct (Js.split_ws_from false (Js.trim line)) as [|p r]; [contradiction|].
  destruct Hn as [Hr Hp].
  assert (Hp' : p <> []).
  { apply Hp. right. destruct (Js.trim line) as [|c t] eqn:E;
      [contradiction N; reflexivity|].
    cbn [hd]. eapply trim_hd. exact E. }
  inversion Hs as [|? ? Hps Hrs]; subst.
  constructor; [split; assumption|].
  apply Forall_forall. intros q Hq. split.
  - rewrite Forall_forall in Hr. apply Hr, Hq.
  - rewrite Forall_forall in Hrs. apply Hrs, Hq.
Qed.

(** ** Setting and getting in a map *)

Lemma JsMap_get_set_same k v m : JsMap.get k (JsMap.set k v m) = Some v.
Proof.
  induction m as [|[k' v'] m IH]; simpl.
  - rewrite Js_eqb_refl. reflexivity.
  - destruct (Js.eqb k' k) eqn:E; simpl; rewrite E; [reflexivity | exact IH].
Qed.

Lemma JsMap_get_set_other k k' v m :
  k' <> k -> JsMap.get k' (JsMap.set k v m) = JsMap.get k' m.
Proof.
  intros N. induction m as [|[k0 v0] m IH]; simpl.
  - destruct (Js.eqb k k') eqn:E; [apply Js_eqb_eq in E; congruence|].
    reflexivity.
  - destruct (Js.eqb k0 k) eqn:E; simpl.
    + apply Js_eqb_eq in E. subst k0.
      destruct (Js.eqb k k') eqn:E'; [apply Js_eqb_eq in E'; congruence|].
      reflexivity.
    + rewrite IH. reflexivity.
Qed.

Lemma JsMap_set_In k v m e :
  In e (JsMap.set k v m) -> e = (k, v) \/ In e m.
Proof.
  induction m as [|[k' v'] m IH]; simpl.
  - intros [<-|[]]. auto.
  - destruct (Js.eqb k' k) eqn:E; simpl.
    + apply Js_eqb_eq in E. subst k'. intros [<-|H]; auto.
    + intros [<-|H]; auto. destruct (IH H); auto.
Qed.

Lemma JsMap_set_key k v m : In k (map fst (JsMap.set k v m)).
Proof.
  induction m as [|[k' v'] m IH]; simpl; [auto|].
  destruct (Js.eqb k' k) eqn:E; simpl; [|auto].
  apply Js_eqb_eq in E. auto.
Qed.

Lemma JsMap_set_keeps k v m k' :
  In k' (map fst m) -> In k' (map fst (JsMap.set k v m)).
Proof.
  induction m as [|[k0 v0] m IH]; simpl; [intros []|].
  destruct (Js.eqb k0 k); simpl; intros [H|H]; auto.
Qed.

Lemma JsMap_set_NoDup k v m :
  NoDup (map fst m) -> NoDup (map fst (JsMap.set k v m)).
Proof.
  induction m as [|[k' v'] m IH]; simpl; intros H.
  - constructor; [intros [] | constructor].
  - inversion H as [|? ? Hn Hd]; subst.
    destruct (Js.eqb k' k) eqn:E; simpl; [constructor; assumption|].
    constructor; [|apply IH, Hd].
    intros Hin. apply in_map_iff in Hin. destruct Hin as ([k0 v0] & <- & Hin).
    apply JsMap_set_In in Hin. destruct Hin as [[= -> ->]|Hin].
    + rewrite Js_eqb_refl in E. discriminate.
    + apply Hn. apply in_map_iff. exists (k0, v0). auto.
Qed.

Lemma fold_left_invariant {A B} (f : A -> B -> A) (I : A -> Prop) l :
  (forall a b, In b l -> I a -> I (f a b)) ->
  forall a, I a -> I (fold_left f l a).
Proof.
  induction l as [|b l IH]; simpl; intros Hf a Ha; [exact Ha|].
  apply IH; [intros; apply Hf; auto | apply Hf; auto].
Qed.

(** ** The listing of Homebrew *)

Lemma includes_default c : includes (allowed_or_default None) c = true -> c = 0%Z.
Proof.
  unfold includes, allowed_or_default. simpl. rewrite orb_false_r.
  apply Z.eqb_eq.
Qed.

(** The map [collectBrew] builds has one entry per name, each read off a
    line of at least two words. *)
Lemma brew_installed_entries out :
  NoDup (map fst (brew_installed out))
  /\ Forall (fun e =>
       exists line,
         In line (Js.split_on 10 out) /\ Js.trim line <> []
         /\ 2 <= List.length (words line)
         /\ fst e = nth 0 (words line) [] /\ snd e = last (words line) [])
       (brew_installed out).
Proof.
  unfold brew_installed.
  apply (fold_left_invariant brew_installed_step
           (fun m => NoDup (map fst m) /\ Forall _ m));
    [|split; constructor].
  intros m line Hin [Hd Hf]. unfold brew_installed_step.
  destruct (Js.truthy (Js.trim line)) eqn:T; cbn [negb]; [|auto].
  fold (words line).
  destruct (List.length (words line) <? 2)%nat eqn:L; [auto|].
  apply Nat.ltb_ge in L.
  split; [apply JsMap_set_NoDup, Hd|].
  apply Forall_forall. intros e He. apply JsMap_set_In in He.
  destruct He as [->|He]; [|rewrite Forall_forall in Hf; apply Hf, He].
  exists line. repeat split; auto.
  destruct (Js.trim line); [discriminate T | discriminate].
Qed.

Lemma brew_installed_complete out line :
  In line (Js.split_on 10 out) -> Js.trim line <> [] ->
  2 <= List.length (words line) ->
  In (nth 0 (words line) []) (map fst (brew_installed out)).
Proof.
  intros Hin T L. unfold brew_installed.
  generalize JsMap.empty. revert Hin.
  induction (Js.split_on 10 out) as [|l ls IH]; intros [] m.
  - subst l. cbn [fold_left].
    apply (fold_left_invariant brew_installed_step
             (fun m => In (nth 0 (words line) []) (map fst m))).
    + intros a b _ Ha. unfold brew_installed_step.
      destruct (negb _); [exact Ha|].
      destruct (_ <? 2)%nat; [exact Ha | apply JsMap_set_keeps, Ha].
    + unfold brew_installed_step. fold (words line).
      destruct (Js.trim line) eqn:E; [contradiction T; reflexivity|].
      cbn [Js.truthy negb].
      apply Nat.ltb_ge in L. rewrite L. apply JsMap_set_key.
  - cbn [fold_left]. apply IH. assumption.
Qed.

Lemma collectBrew_returned_listing (P : Platform) (rt rt' : Runtime P) recs :
  collectBrew rt = (Returned recs, rt') ->
  exists out err w1 outdatedMap,
    Bun_spawn P (list_command brew) (world rt) = (Exited 0 out err, w1)
    /\ recs = map (brew_record outdatedMap) (brew_installed out).
Proof.
  unfold collectBrew. intros H. invert_run;
    match goal with
    | Hc : includes (allowed_or_default None) (code ?x) = true,
      Hs : Bun_spawn _ _ (world rt) = _ |- _ =>
        apply includes_default in Hc; rewrite Hc in Hs
    end;
    eexists _, _, _.
  - exists []. split; [eassumption|].
    match goal with
    | Hz : (JsMap.size ?m =? 0)%nat = true |- _ =>
        apply Nat.eqb_eq in Hz; destruct m; [reflexivity | discriminate Hz]
    end.
  - eexists. split; [eassumption | reflexivity].
  - eexists. split; [eassumption | reflexivity].
Qed.

(** X1.  The records [collectBrew] returns have pairwise different
    names. *)
Theorem collectBrew_names_unique (P : Platform) (rt rt' : Runtime P) recs :
  collectBrew rt = (Returned recs, rt') -> NoDup (map name recs).
Proof.
  intros H. apply collectBrew_returned_listing in H.
  destruct H as (out & err & w1 & om & _ & ->).
  rewrite map_map.
  replace (map (fun e => name (brew_record om e)) (brew_installed out))
    with (map fst (brew_installed out)).
  - apply brew_installed_entries.
  - apply map_ext. intros [n v]. reflexivity.
Qed.

(** X1 at work: [wget] is listed on two lines and returned once, with
    the version of the later line and at the place of the earlier. *)
Lemma collectBrew_names_unique_witness :
  map name (outcome_packages
              (fst (collectBrew (Fixture.start Scenario.duplicates))))
  = [Js.lit "wget"; Js.lit "python"]
  /\ map current_version
       (outcome_packages
          (fst (collectBrew (Fixture.start Scenario.duplicates))))
     = [Js.lit "1.24.5"; Js.lit "3.12.4"]
  /\ NoDup [Js.lit "wget"; Js.lit "python"].
Proof.
  split; [vm_compute; reflexivity|]. split; [vm_compute; reflexivity|].
  exact (@collectBrew_names_unique (Fixture.platform Scenario.duplicates)
           (Fixture.start Scenario.duplicates)
           (snd (collectBrew (Fixture.start Scenario.duplicates)))
           _ eq_refl).
Defined.

(** X2.  Every record of [collectBrew] is read off a line of the listing
    that has at least two words: its name is the first word and its
    version the last, both without white space and not empty; and every
    such line has its first word among the names. *)
Theorem collectBrew_reads_listing (P : Platform) (rt rt' : Runtime P) recs
    c out err w1 :
  Bun_spawn P (list_command brew) (world rt) = (Exited c out err, w1) ->
  collectBrew rt = (Returned recs, rt') ->
  Forall (fun r =>
      token (name r) /\ token (current_version r)
      /\ exists line,
           In line (Js.split_on 10 out)
           /\ 2 <= List.length (words line)
           /\ name r = nth 0 (words line) []
           /\ current_version r = last (words line) []) recs
  /\ forall line,
       In line (Js.split_on 10 out) -> Js.trim line <> [] ->
       2 <= List.length (words line) ->
       In (nth 0 (words line) []) (map name recs).
Proof.
  intros Hs H. apply collectBrew_returned_listing in H.
  destruct H as (out' & err' & w1' & om & Hs' & ->).
  rewrite Hs in Hs'. injection Hs' as _ <- _ _.
  destruct (brew_installed_entries out) as [_ Hf]. split.
  - apply Forall_forall. intros r Hr. apply in_map_iff in Hr.
    destruct Hr as ([n v] & <- & Hin).
    rewrite Forall_forall in Hf.
    destruct (Hf _ Hin) as (line & Hl & T & L & En & Ev).
    cbn [fst snd] in En, Ev. cbn [brew_record name current_version].
    pose proof (words_tokens line T) as Hw. rewrite Forall_forall in Hw.
    assert (W : words line <> [])
      by (destruct (words line); [simpl in L; lia | discriminate]).
    split; [|split].
    + apply Hw. rewrite En. apply nth_In. lia.
    + apply Hw. rewrite Ev.
      destruct (exists_last W) as (l' & x & ->). rewrite last_last.
      apply in_or_app. right. left. reflexivity.
    + exists line. auto.
  - intros line Hl T L. rewrite map_map.
    replace (map (fun e => name (brew_record om e)) (brew_installed out))
      with (map fst (brew_installed out))
      by (apply map_ext; intros [n v]; reflexivity).
    apply brew_installed_complete; assumption.
Qed.

(** X2 at work: [python 3.11.9 3.12.4] gives [python] at [3.12.4]; the
    blank line and the line [lonely] give nothing. *)
Lemma collectBrew_reads_listing_witness :
  exists recs,
    fst (collectBrew (Fixture.start Scenario.duplicates)) = Returned recs
    /\ Forall (fun r => token (name r) /\ token (current_version r)) recs
    /\ In (Js.lit "python") (map name recs).
Proof.
  destruct (collectBrew (Fixture.start Scenario.duplicates))
    as [[recs|e] rt'] eqn:E; [|vm_compute in E; discriminate E].
  destruct (@collectBrew_reads_listing
              (Fixture.platform Scenario.duplicates)
              (Fixture.start Scenario.duplicates) rt' recs 0%Z
              (Fixture.lines ["wget 1.24.4"; ""; "python 3.11.9 3.12.4";
                              "lonely"; "  wget   1.24.5  "]) [] tt
              eq_refl E) as [Hf Hc].
  exists recs. split; [reflexivity|]. split.
  - eapply Forall_impl; [|exact Hf]. cbn beta. tauto.
  - apply (Hc (Js.lit "python 3.11.9 3.12.4")).
    + vm_compute. tauto.
    + vm_compute. discriminate.
    + vm_compute. lia.
Defined.

(** ** Steps that fail *)

Lemma runCommand_failed (P : Platform) program args allowed (rt : Runtime P)
    c out err w' :
  Bun_spawn P (program :: args) (world rt) = (Exited c out err, w') ->
  includes (allowed_or_default allowed) c = false ->
  runCommand program args allowed rt
  = (Thrown (Error (command_failure_message program args c err)),
     {| world := w'; spawned := spawned rt ++ [program :: args] |}).
Proof.
  intros Hs Hc. rewrite runCommand_run, Hs. cbn [fst snd].
  rewrite Hc. reflexivity.
Qed.

Lemma runCommand_not_spawned (P : Platform) program args allowed
    (rt : Runtime P) e w' :
  Bun_spawn P (program :: args) (world rt) = (SpawnFailed e, w') ->
  runCommand program args allowed rt
  = (Thrown e, {| world := w'; spawned := spawned rt ++ [program :: args] |}).
Proof. intros Hs. rewrite runCommand_run, Hs. reflexivity. Qed.

Lemma excludes_default c : c <> 0%Z -> includes (allowed_or_default None) c = false.
Proof.
  intros N. unfold includes, allowed_or_default. simpl.
  rewrite orb_false_r. apply Z.eqb_neq. exact N.
Qed.

Lemma excludes_0_1 c :
  c <> 0%Z -> c <> 1%Z ->
  includes (allowed_or_default (Some [0%Z; 1%Z])) c = false.
Proof.
  intros N0 N1. unfold includes, allowed_or_default. simpl.
  rewrite orb_false_r. apply orb_false_iff.
  split; apply Z.eqb_neq; assumption.
Qed.

(** X3.  When the inventory command of a manager cannot be spawned, its
    collector throws the error of [Bun.spawn]; when it exits with a code
    other than 0, the collector throws the command failure, whose message
    names the command line, the code and the trimmed standard error.
    Either way nothing else is spawned: the outdated step is not
    attempted. *)
Theorem inventory_step_failure (P : Platform) (m : PackageManager)
    (rt : Runtime P) :
  let r := Bun_spawn P (list_command m) (world rt) in
  let rt1 := {| world := snd r;
                spawned := spawned rt ++ [list_command m] |} in
  match fst r with
  | Exited c out err =>
      c <> 0%Z ->
      collector m rt
      = (Thrown (Error (Js.join (Js.lit " ") (list_command m)
                          ++ Js.lit " failed (exit " ++ Js.of_Z c
                          ++ Js.lit "): " ++ Js.trim err)), rt1)
  | SpawnFailed e => collector m rt = (Thrown e, rt1)
  end.
Proof.
  intros r rt1. subst r rt1.
  destruct (Bun_spawn P (list_command m) (world rt)) as [[c out err|e] w1]
    eqn:Hs; cbn [fst snd].
  - intros N. apply excludes_default in N.
    destruct m; cbn [collector list_command] in *;
      [unfold collectBrew | unfold collectNpm | unfold collectPip];
      unfold bind; rewrite (runCommand_failed _ _ None rt Hs N); reflexivity.
  - destruct m; cbn [collector list_command] in *;
      [unfold collectBrew | unfold collectNpm | unfold collectPip];
      unfold bind; rewrite (runCommand_not_spawned _ _ None rt Hs);
      reflexivity.
Qed.

(** X3 at work: [brew list --versions] exits with 1, and where no manager
    is installed [pip] cannot be spawned. *)
Lemma inventory_step_failure_witness :
  (fst (collectBrew (Fixture.start Scenario.failing_steps))
   = Thrown (Error (Js.lit "brew list --versions failed (exit 1): Error: Unknown command: list"))
   /\ spawned (snd (collectBrew (Fixture.start Scenario.failing_steps)))
      = [list_command brew])
  /\ (fst (collectPip (Fixture.start Scenario.nothing_on_path))
      = Thrown (Error (Js.lit "Executable not found in $PATH"))
      /\ spawned (snd (collectPip (Fixture.start Scenario.nothing_on_path)))
         = [list_command pip]).
Proof.
  pose proof (@inventory_step_failure
                (Fixture.platform Scenario.failing_steps)
                brew (Fixture.start Scenario.failing_steps)) as Hb.
  pose proof (@inventory_step_failure
                (Fixture.platform Scenario.nothing_on_path)
                pip (Fixture.start Scenario.nothing_on_path)) as Hp.
  hnf in Hb, Hp. cbn [collector] in Hb, Hp.
  rewrite Hb, Hp by discriminate. repeat split.
Defined.

(** X4.  When the inventory step got through and the outdated command
    exits with a code that is not allowed (0, and for npm 1), the
    collector throws the command failure and returns no record, although
    the inventory was read.  For Homebrew this needs a listing that is
    not empty. *)
Theorem outdated_step_failure (P : Platform) (m : PackageManager)
    (rt : Runtime P) out1 err1 w1 c out2 err2 w2 :
  Bun_spawn P (list_command m) (world rt) = (Exited 0 out1 err1, w1) ->
  Bun_spawn P (outdated_command m) w1 = (Exited c out2 err2, w2) ->
  c <> 0%Z ->
  (m = brew /\ brew_installed out1 <> []
   \/ m = npm /\ c <> 1%Z
        /\ (exists tree, JSON_parse_NpmTree P out1 = inr tree)
   \/ m = pip
        /\ (exists installed, JSON_parse_PipList P out1 = inr installed)) ->
  collector m rt
  = (Thrown (Error (Js.join (Js.lit " ") (outdated_command m)
                      ++ Js.lit " failed (exit " ++ Js.of_Z c
                      ++ Js.lit "): " ++ Js.trim err2)),
     {| world := w2;
        spawned := spawned rt ++ [list_command m; outdated_command m] |}).
Proof.
  intros H1 H2 N Hm.
  destruct Hm as [[-> Hi]|[(-> & N1 & tree & T)|(-> & installed & T)]];
    cbn [collector list_command outdated_command] in *.
  - unfold collectBrew, bind.
    rewrite (runCommand_exited _ _ None rt H1 eq_refl). cbn [stdout].
    destruct (brew_installed out1) as [|e l] eqn:E; [contradiction Hi; reflexivity|].
    cbn [JsMap.size List.length Nat.eqb].
    erewrite runCommand_failed; [|exact H2|apply excludes_default, N].
    cbn [spawned]. rewrite <- app_assoc. reflexivity.
  - unfold collectNpm, bind.
    rewrite (runCommand_exited _ _ None rt H1 eq_refl). cbn [stdout].
    unfold parse_or_throw at 1. rewrite T. unfold ret at 1.
    erewrite runCommand_failed; [|exact H2|apply excludes_0_1; assumption].
    cbn [spawned]. rewrite <- app_assoc. reflexivity.
  - unfold collectPip, bind.
    rewrite (runCommand_exited _ _ None rt H1 eq_refl). cbn [stdout].
    unfold parse_or_throw at 1. rewrite T. unfold ret at 1.
    erewrite runCommand_failed; [|exact H2|apply excludes_default, N].
    cbn [spawned]. rewrite <- app_assoc. reflexivity.
Qed.

(** X4 at work: [pip list --outdated] exits with 1, which only npm
    allows: pip's one installed package is not returned. *)
Lemma outdated_step_failure_witness :
  fst (collectPip (Fixture.start Scenario.failing_steps))
  = Thrown (Error (Js.lit "pip list --outdated --format=json failed (exit 1): ERROR: no network"))
  /\ spawned (snd (collectPip (Fixture.start Scenario.failing_steps)))
     = [list_command pip; outdated_command pip].
Proof.
  pose proof (@outdated_step_failure
                (Fixture.platform Scenario.failing_steps)
                pip (Fixture.start Scenario.failing_steps)
                (Fixture.json_text "[{'name':'requests','version':'2.32.3'}]")
                [] tt 1%Z [] (Fixture.lines ["ERROR: no network"]) tt
                eq_refl eq_refl) as H.
  cbn [collector] in H. rewrite H.
  - split; reflexivity.
  - discriminate.
  - right. right. split; [reflexivity|]. eexists. reflexivity.
Defined.

(** ** Output that is not JSON *)

(** X5.  When [npm ls] or [pip list] succeeds with an output that
    [JSON.parse] refuses, the collector throws an error whose message is
    the fixed prefix followed by the parser's error, and the outdated
    command is not spawned. *)
Theorem inventory_parse_failure (P : Platform) (m : PackageManager)
    (rt : Runtime P) out err w1 e :
  Bun_spawn P (list_command m) (world rt) = (Exited 0 out err, w1) ->
  (m = npm /\ JSON_parse_NpmTree P out = inl e
   \/ m = pip /\ JSON_parse_PipList P out = inl e) ->
  collector m rt
  = (Thrown (Error ((match m with
                     | npm => Js.lit "Failed to parse npm ls JSON: "
                     | _ => Js.lit "Failed to parse pip list JSON: "
                     end) ++ e)),
     {| world := w1; spawned := spawned rt ++ [list_command m] |}).
Proof.
  intros H1 [[-> T]|[-> T]]; cbn [collector list_command] in *.
  - unfold collectNpm, bind.
    rewrite (runCommand_exited _ _ None rt H1 eq_refl). cbn [stdout].
    unfold parse_or_throw at 1. rewrite T. reflexivity.
  - unfold collectPip, bind.
    rewrite (runCommand_exited _ _ None rt H1 eq_refl). cbn [stdout].
    unfold parse_or_throw at 1. rewrite T. reflexivity.
Qed.

(** X5 at work: [npm ls] prints a warning instead of JSON. *)
Lemma inventory_parse_failure_witness :
  fst (collectNpm (Fixture.start Scenario.unparsable))
  = Thrown (Error (Js.lit "Failed to parse npm ls JSON: SyntaxError: JSON Parse error"))
  /\ spawned (snd (collectNpm (Fixture.start Scenario.unparsable)))
     = [list_command npm].
Proof.
  pose proof (@inventory_parse_failure
                (Fixture.platform Scenario.unparsable) npm
                (Fixture.start Scenario.unparsable)
                (Js.lit "npm warn") [] tt
                (Js.lit "SyntaxError: JSON Parse error") eq_refl
                (or_introl (conj eq_refl eq_refl))) as H.
  cbn [collector] in H. rewrite H. split; reflexivity.
Defined.

(** X6.  When both commands of a collector succeed and the outdated
    output is not blank but [JSON.parse] refuses it, the collector throws
    the prefixed parser error and returns no record, although the
    inventory was read. *)
Theorem outdated_parse_failure (P : Platform) (m : PackageManager)
    (rt : Runtime P) out1 err1 w1 c out2 err2 w2 e :
  Bun_spawn P (list_command m) (world rt) = (Exited 0 out1 err1, w1) ->
  Bun_spawn P (outdated_command m) w1 = (Exited c out2 err2, w2) ->
  Js.trim out2 <> [] ->
  (m = brew /\ c = 0%Z /\ brew_installed out1 <> []
     /\ JSON_parse_BrewOutdated P out2 = inl e
   \/ m = npm /\ (c = 0%Z \/ c = 1%Z)
        /\ (exists tree, JSON_parse_NpmTree P out1 = inr tree)
        /\ JSON_parse_NpmOutdated P out2 = inl e
   \/ m = pip /\ c = 0%Z
        /\ (exists installed, JSON_parse_PipList P out1 = inr installed)
        /\ JSON_parse_PipOutdated P out2 = inl e) ->
  collector m rt
  = (Thrown (Error ((match m with
                     | brew => Js.lit "Failed to parse brew outdated JSON: "
                     | npm => Js.lit "Failed to parse npm outdated JSON: "
                     | pip => Js.lit "Failed to parse pip outdated JSON: "
                     end) ++ e)),
     {| world := w2;
        spawned := spawned rt ++ [list_command m; outdated_command m] |}).
Proof.
  intros H1 H2 B Hm.
  assert (T2 : Js.truthy (Js.trim out2) = true)
    by (destruct (Js.trim out2); [contradiction B|]; reflexivity).
  destruct Hm as [(-> & -> & Hi & J)|[(-> & Hc & [tree T] & J)
                                      |(-> & -> & [installed T] & J)]];
    cbn [collector list_command outdated_command] in *.
  - unfold collectBrew, bind.
    rewrite (runCommand_exited _ _ None rt H1 eq_refl). cbn [stdout].
    destruct (brew_installed out1) as [|x l] eqn:E;
      [contradiction Hi; reflexivity|].
    cbn [JsMap.size List.length Nat.eqb].
    erewrite runCommand_exited; [|exact H2|reflexivity]. cbn [stdout].
    rewrite T2. unfold parse_or_throw. rewrite J. unfold throw.
    cbn [spawned]. rewrite <- app_assoc. reflexivity.
  - unfold collectNpm, bind.
    rewrite (runCommand_exited _ _ None rt H1 eq_refl). cbn [stdout].
    unfold parse_or_throw at 1. rewrite T. unfold ret at 1.
    erewrite runCommand_exited;
      [|exact H2|destruct Hc as [-> | ->]; reflexivity]. cbn [stdout].
    rewrite T2. unfold parse_or_throw. rewrite J. unfold throw.
    cbn [spawned]. rewrite <- app_assoc. reflexivity.
  - unfold collectPip, bind.
    rewrite (runCommand_exited _ _ None rt H1 eq_refl). cbn [stdout].
    unfold parse_or_throw at 1. rewrite T. unfold ret at 1.
    erewrite runCommand_exited; [|exact H2|reflexivity]. cbn [stdout].
    rewrite T2. unfold parse_or_throw. rewrite J. unfold throw.
    cbn [spawned]. rewrite <- app_assoc. reflexivity.
Qed.

(** X6 at work: Homebrew lists [wget], but [brew outdated] prints a
    warning instead of JSON. *)
Lemma outdated_parse_failure_witness :
  fst (collectBrew (Fixture.start Scenario.unparsable))
  = Thrown (Error (Js.lit "Failed to parse brew outdated JSON: SyntaxError: JSON Parse error"))
  /\ spawned (snd (collectBrew (Fixture.start Scenario.unparsable)))
     = [list_command brew; outdated_command brew].
Proof.
  pose proof (@outdated_parse_failure
                (Fixture.platform Scenario.unparsable) brew
                (Fixture.start Scenario.unparsable)
                (Fixture.lines ["wget 1.24.5"]) [] tt 0%Z
                (Js.lit "Warning: no JSON") [] tt
                (Js.lit "SyntaxError: JSON Parse error") eq_refl eq_refl) as H.
  cbn [collector] in H. rewrite H.
  - split; reflexivity.
  - vm_compute. discriminate.
  - left. repeat split. vm_compute. discriminate.
Defined.

(** ** A blank outdated output *)

(** X7.  When the outdated command of Homebrew or npm succeeds with
    nothing but white space on its standard output, nothing is parsed and
    every record the collector returns has [latest_version = null] and
    status [current]. *)
Theorem blank_outdated_output (P : Platform) (m : PackageManager)
    (rt : Runtime P) out1 err1 w1 c out2 err2 w2 :
  Bun_spawn P (list_command m) (world rt) = (Exited 0 out1 err1, w1) ->
  Bun_spawn P (outdated_command m) w1 = (Exited c out2 err2, w2) ->
  Js.trim out2 = [] ->
  (m = brew /\ c = 0%Z
   \/ m = npm /\ (c = 0%Z \/ c = 1%Z)
        /\ exists tree, JSON_parse_NpmTree P out1 = inr tree) ->
  exists recs,
    fst (collector m rt) = Returned recs
    /\ Forall (fun r => latest_version r = None /\ status r = current) recs.
Proof.
  intros H1 H2 B [(-> & ->)|(-> & Hc & tree & T)];
    cbn [collector list_command outdated_command] in *.
  - unfold collectBrew, bind.
    rewrite (runCommand_exited _ _ None rt H1 eq_refl). cbn [stdout].
    destruct (JsMap.size (brew_installed out1) =? 0)%nat.
    + eexists. split; [reflexivity | constructor].
    + erewrite runCommand_exited; [|exact H2|reflexivity]. cbn [stdout].
      rewrite B. cbn [Js.truthy]. unfold ret. cbn [fst].
      eexists. split; [reflexivity|].
      apply Forall_forall. intros r Hr. apply in_map_iff in Hr.
      destruct Hr as ([n v] & <- & _). split; reflexivity.
  - unfold collectNpm, bind.
    rewrite (runCommand_exited _ _ None rt H1 eq_refl). cbn [stdout].
    unfold parse_or_throw at 1. rewrite T. unfold ret at 1.
    erewrite runCommand_exited;
      [|exact H2|destruct Hc as [-> | ->]; reflexivity]. cbn [stdout].
    rewrite B. cbn [Js.truthy]. unfold ret. cbn [fst].
    eexists. split; [reflexivity|].
    apply npm_packages_Forall; [|constructor].
    intros n v. split; reflexivity.
Qed.

(** X7 at work: [brew outdated] prints nothing, so [wget] and [python]
    are current. *)
Lemma blank_outdated_output_witness :
  exists recs,
    fst (collectBrew (Fixture.start Scenario.duplicates)) = Returned recs
    /\ Forall (fun r => latest_version r = None /\ status r = current) recs.
Proof.
  apply (@blank_outdated_output
           (Fixture.platform Scenario.duplicates) brew
           (Fixture.start Scenario.duplicates)
           (Fixture.lines ["wget 1.24.4"; ""; "python 3.11.9 3.12.4";
                           "lonely"; "  wget   1.24.5  "]) [] tt 0%Z
           [] [] tt eq_refl eq_refl eq_refl).
  left. split; reflexivity.
Defined.

(** ** The status, as the code derives it *)

Lemma truthy_nonempty (s : jsstring) : Js.truthy s = true <-> s <> [].
Proof. destruct s; simpl; split; congruence. Qed.

Lemma brew_record_rule outdatedMap entry :
  all_truthy outdatedMap ->
  let r := brew_record outdatedMap entry in
  (status r = outdated
   <-> exists l, latest_version r = Some l /\ l <> []
                 /\ l <> current_version r)
  /\ (status r <> outdated -> status r = current)
  /\ latest_version r <> Some [].
Proof.
  intros Hm. destruct entry as [n v]. unfold brew_record.
  cbn [status latest_version current_version].
  destruct (JsMap.get n outdatedMap) as [l|] eqn:G; cbn [truthy_opt strict_neq].
  - pose proof (@JsMap_get_values _ n l outdatedMap Hm G) as Hl.
    cbn beta in Hl. rewrite Hl. cbn [andb].
    assert (Nl : l <> []) by (apply truthy_nonempty, Hl).
    destruct (Js.eqb l v) eqn:E; cbn [negb].
    + apply Js_eqb_eq in E. subst l. repeat split; try discriminate.
      * intros (l' & [= <-] & _ & N). congruence.
      * congruence.
    + apply Js_eqb_neq in E. repeat split; try congruence; eauto.
  - cbn [andb]. repeat split; try discriminate.
    intros (l' & [= ] & _).
Qed.

Lemma truthy_record_rule (r : PackageRecord) :
  status r = (if truthy_opt (latest_version r) then outdated else current) ->
  (status r = outdated <-> exists l, latest_version r = Some l /\ l <> [])
  /\ (status r <> outdated -> status r = current).
Proof.
  intros E. rewrite E.
  destruct (latest_version r) as [[|c l]|]; cbn [truthy_opt Js.truthy];
    repeat split; try discriminate; try congruence.
  - intros (l' & [= <-] & N). congruence.
  - intros _. eexists. split; [reflexivity | discriminate].
  - intros (l' & [= ] & _).
Qed.

(** X8.  The status of every record a collector returns is [outdated] or
    [current].  It is [outdated] exactly when a latest version is present
    and not the empty string and, for Homebrew only, differs from the
    current version; npm and pip do not compare the two.  A record of
    Homebrew or npm never has the empty string as its latest version. *)
Theorem status_as_derived (P : Platform) (m : PackageManager)
    (rt rt' : Runtime P) (recs : list PackageRecord) :
  collector m rt = (Returned recs, rt') ->
  Forall (fun r =>
      (status r = outdated
       <-> exists l, latest_version r = Some l /\ l <> []
                     /\ (m = brew -> l <> current_version r))
      /\ (status r <> outdated -> status r = current)
      /\ (m <> pip -> latest_version r <> Some [])) recs.
Proof.
  intros E. destruct m; cbn [collector] in E.
  - apply collectBrew_returned in E. destruct E as (om & ins & -> & Hm).
    apply Forall_forall. intros r Hr. apply in_map_iff in Hr.
    destruct Hr as (e & <- & _).
    destruct (brew_record_rule e Hm) as (H1 & H2 & H3).
    split; [|split; [exact H2 | intros _; exact H3]].
    rewrite H1. split; intros (l & ? & ? & ?); exists l; auto.
  - apply collectNpm_returned in E. destruct E as (om & deps & -> & Hm).
    apply npm_packages_Forall; [|constructor].
    intros n v.
    destruct (truthy_record_rule (npm_record om n v) eq_refl) as [H1 H2].
    split; [|split; [exact H2|]].
    + rewrite H1. split.
      * intros (l & ? & ?). exists l. repeat split; auto. discriminate.
      * intros (l & ? & ? & _). exists l. auto.
    + intros _. cbn [npm_record latest_version].
      destruct (JsMap.get n om) as [l|] eqn:G; [|discriminate].
      pose proof (@JsMap_get_values _ n l om Hm G) as Hl. cbn beta in Hl.
      intros [= ->]. discriminate Hl.
  - apply collectPip_returned in E. destruct E as (om & ins & ->).
    apply Forall_forall. intros r Hr. apply in_map_iff in Hr.
    destruct Hr as (pkg & <- & _).
    destruct (truthy_record_rule (pip_record om pkg) eq_refl) as [H1 H2].
    split; [|split; [exact H2 | congruence]].
    rewrite H1. split.
    + intros (l & ? & ?). exists l. repeat split; auto. discriminate.
    + intros (l & ? & ? & _). exists l. auto.
Qed.

(** X8 at work: npm reports a latest version equal to the installed one,
    and the record is [outdated]. *)
Lemma status_as_derived_witness :
  fst (collectNpm (Fixture.start Fixture.npm_latest_is_current))
  = Returned [Fixture.typescript_up_to_date]
  /\ (status Fixture.typescript_up_to_date = outdated
      <-> exists l,
            latest_version Fixture.typescript_up_to_date = Some l
            /\ l <> []
            /\ (npm = brew -> l <> current_version Fixture.typescript_up_to_date)).
Proof.
  split; [vm_compute; reflexivity|].
  pose proof (@status_as_derived
                (Fixture.platform Fixture.npm_latest_is_current) npm
                (Fixture.start Fixture.npm_latest_is_current)
                (snd (collectNpm
                        (Fixture.start Fixture.npm_latest_is_current)))
                [Fixture.typescript_up_to_date] eq_refl) as H.
  inversion H as [|? ? Hr _]; subst. apply Hr.
Defined.

(** ** The records of npm and pip *)

(** The loop of [collectNpm], as a map over the dependencies that have a
    version. *)
Lemma npm_packages_flat_map outdatedMap deps acc :
  fold_left (npm_packages_step outdatedMap) deps acc
  = acc ++ flat_map (fun e =>
             match snd e with
             | Some p =>
                 match dep_version p with
                 | Some v =>
                     if Js.truthy v then [npm_record outdatedMap (fst e) v]
                     else []
                 | None => []
                 end
             | None => []
             end) deps.
Proof.
  revert acc. induction deps as [|[n pkg] deps IH]; intros acc; simpl.
  - rewrite app_nil_r. reflexivity.
  - rewrite IH. destruct pkg as [p|]; [|reflexivity].
    destruct (dep_version p) as [v|]; [|reflexivity].
    destruct (Js.truthy v); simpl; [|reflexivity].
    rewrite <- app_assoc. reflexivity.
Qed.

Lemma collectNpm_returned_tree (P : Platform) (rt rt' : Runtime P) recs :
  collectNpm rt = (Returned recs, rt') ->
  exists out err w1 tree outdatedMap,
    Bun_spawn P (list_command npm) (world rt) = (Exited 0 out err, w1)
    /\ JSON_parse_NpmTree P out = inr tree
    /\ recs = fold_left (npm_packages_step outdatedMap)
                (match dependencies tree with Some d => d | None => [] end)
                [].
Proof.
  unfold collectNpm. intros H. invert_run;
    match goal with
    | Hc : includes (allowed_or_default None) (code ?x) = true,
      Hs : Bun_spawn _ _ (world rt) = _ |- _ =>
        apply includes_default in Hc; rewrite Hc in Hs
    end;
    eexists _, _, _, _, _; (split; [eassumption|]);
    (split; [eassumption | reflexivity]).
Qed.

(** X9.  The records of [collectNpm] are, in the order of
    [Object.entries], the dependencies whose entry is an object with a
    version that is not the empty string, under the name and the version
    of the entry; the other dependencies are left out. *)
Theorem collectNpm_reads_dependencies (P : Platform) (rt rt' : Runtime P)
    recs c out err w1 tree :
  Bun_spawn P (list_command npm) (world rt) = (Exited c out err, w1) ->
  JSON_parse_NpmTree P out = inr tree ->
  collectNpm rt = (Returned recs, rt') ->
  map (fun r => (name r, Some {| dep_version := Some (current_version r) |}))
      recs
  = filter (fun e =>
      match snd e with
      | Some p => truthy_opt (dep_version p)
      | None => false
      end)
      (match dependencies tree with Some d => d | None => [] end)
  /\ Forall (fun r => current_version r <> []) recs.
Proof.
  intros Hs T H. apply collectNpm_returned_tree in H.
  destruct H as (out' & err' & w1' & tree' & om & Hs' & T' & ->).
  rewrite Hs in Hs'. injection Hs' as _ <- _ _.
  rewrite T in T'. injection T' as <-.
  rewrite npm_packages_flat_map. cbn [app].
  generalize (match dependencies tree with Some d => d | None => [] end).
  intros deps. induction deps as [|[n pkg] deps [IH1 IH2]]; cbn [flat_map filter map];
    [split; [reflexivity | constructor]|].
  cbn [snd fst]. destruct pkg as [[[v|]]|]; cbn [dep_version truthy_opt];
    try (split; assumption).
  destruct (Js.truthy v) eqn:Tv; cbn [app map]; [|split; assumption].
  split.
  - rewrite IH1. reflexivity.
  - constructor; [|assumption]. cbn. apply truthy_nonempty, Tv.
Qed.

(** X9 at work: of [a] without version, [b] that is [null] and [c] at
    [1.0.0], only [c] is returned. *)
Lemma collectNpm_reads_dependencies_witness :
  exists recs,
    fst (collectNpm (Fixture.start Scenario.duplicates)) = Returned recs
    /\ map (fun r => (name r,
                      Some {| dep_version := Some (current_version r) |}))
         recs
       = [ (Js.lit "c", Some {| dep_version := Some (Js.lit "1.0.0") |}) ].
Proof.
  destruct (collectNpm (Fixture.start Scenario.duplicates))
    as [[recs|e] rt'] eqn:E; [|vm_compute in E; discriminate E].
  exists recs. split; [reflexivity|].
  destruct (@collectNpm_reads_dependencies
              (Fixture.platform Scenario.duplicates)
              (Fixture.start Scenario.duplicates) rt' recs 0%Z
              (Fixture.json_text
                 "{'dependencies':{'a':{},'b':null,'c':{'version':'1.0.0'}}}")
              [] tt
              {| dependencies :=
                   Some [ (Js.lit "a", Some {| dep_version := None |});
                          (Js.lit "b", None);
                          (Js.lit "c",
                           Some {| dep_version := Some (Js.lit "1.0.0") |}) ]
              |} eq_refl eq_refl E) as [H _].
  exact H.
Defined.

Lemma last_of_cons {A} (l : list A) x d d' :
  last (x :: l) d = last (x :: l) d'.
Proof.
  revert x. induction l as [|y l IH]; intros x; [reflexivity|].
  change (last (y :: l) d = last (y :: l) d'). apply IH.
Qed.

(** The latest version the map of pip holds for a name is that of the
    last entry of the outdated output with this name. *)
Lemma pip_outdated_map_get k parsed :
  JsMap.get k (pip_outdated_map parsed)
  = last (map (fun e => Some (pip_latest_version e))
            (entries_for pip_outdated_name k parsed)) None.
Proof.
  unfold pip_outdated_map.
  assert (G : forall m,
             JsMap.get k (fold_left pip_outdated_step parsed m)
             = last (map (fun e => Some (pip_latest_version e))
                       (entries_for pip_outdated_name k parsed))
                 (JsMap.get k m)).
  { induction parsed as [|e parsed IH]; intros m; [reflexivity|].
    cbn [fold_left]. rewrite IH. unfold pip_outdated_step.
    unfold entries_for. cbn [filter].
    destruct (Js.eqb (pip_outdated_name e) k) eqn:E.
    - apply Js_eqb_eq in E. rewrite E, JsMap_get_set_same.
      cbn [map].
      destruct (map _ (filter _ parsed)) as [|x xs]; [reflexivity|].
      change (last (Some (pip_latest_version e) :: x :: xs)
                (JsMap.get k m))
        with (last (x :: xs) (JsMap.get k m)).
      apply last_of_cons.
    - apply Js_eqb_neq in E. rewrite JsMap_get_set_other by congruence.
      reflexivity. }
  apply G.
Qed.

(** X10.  When both commands of pip succeed, [collectPip] returns one
    record per entry of the installed list, in its order and with its
    name and version, entries of the same name included; the latest
    version of a record is that of the last entry of the outdated output
    with its name, [null] when there is none or the output is blank, and
    the record is [outdated] when that is a non-empty string. *)
Theorem collectPip_reads_lists (P : Platform) (rt : Runtime P)
    out1 err1 w1 installed out2 err2 w2 parsed :
  Bun_spawn P (list_command pip) (world rt) = (Exited 0 out1 err1, w1) ->
  JSON_parse_PipList P out1 = inr installed ->
  Bun_spawn P (outdated_command pip) w1 = (Exited 0 out2 err2, w2) ->
  (Js.trim out2 = [] /\ parsed = []
   \/ Js.trim out2 <> [] /\ JSON_parse_PipOutdated P out2 = inr parsed) ->
  fst (collectPip rt)
  = Returned
      (map (fun pkg =>
              let latest_ :=
                last (map (fun e => Some (pip_latest_version e))
                        (entries_for pip_outdated_name (pip_name pkg) parsed))
                  None in
              {| name := pip_name pkg;
                 current_version := pip_version pkg;
                 latest_version := latest_;
                 installed_at := None;
                 status := if truthy_opt latest_ then outdated else current;
                 manager := pip |}) installed).
Proof.
  intros H1 T H2 Hp.
  match goal with |- _ = Returned (map ?f installed) => set (F := f) end.
  unfold collectPip, bind.
  cbn [list_command outdated_command] in *.
  rewrite (runCommand_exited _ _ None rt H1 eq_refl). cbn [stdout].
  unfold parse_or_throw at 1. rewrite T. unfold ret at 1.
  erewrite runCommand_exited; [|exact H2|reflexivity]. cbn [stdout].
  assert (E : forall om,
             (forall k, JsMap.get k om
                        = last (map (fun e => Some (pip_latest_version e))
                                  (entries_for pip_outdated_name k parsed))
                            None) ->
             map (pip_record om) installed = map F installed).
  { intros om Hom. apply map_ext. intros pkg. unfold pip_record, F.
    rewrite Hom. reflexivity. }
  destruct Hp as [[B ->]|[B J]].
  - rewrite B. cbn [Js.truthy]. unfold ret. cbn [fst].
    rewrite (E JsMap.empty); [reflexivity|]. intros k. reflexivity.
  - apply truthy_nonempty in B. rewrite B.
    unfold parse_or_throw. rewrite J. unfold ret. cbn [fst].
    rewrite (E (pip_outdated_map parsed)); [reflexivity|].
    intros k. apply pip_outdated_map_get.
Qed.

(** X10 at work: [six] is installed twice and named twice in the
    outdated output; both records are returned, each with the latest
    version of the second outdated entry. *)
Lemma collectPip_reads_lists_witness :
  exists recs,
    fst (collectPip (Fixture.start Scenario.duplicates)) = Returned recs
    /\ map (fun r => (name r, current_version r, latest_version r)) recs
       = [ (Js.lit "six", Js.lit "1.16.0", Some (Js.lit "1.18.0"));
           (Js.lit "six", Js.lit "1.15.0", Some (Js.lit "1.18.0")) ].
Proof.
  eexists. split.
  - apply (@collectPip_reads_lists
             (Fixture.platform Scenario.duplicates)
             (Fixture.start Scenario.duplicates)
             (Fixture.json_text
                "[{'name':'six','version':'1.16.0'},{'name':'six','version':'1.15.0'}]")
             [] tt
             [ {| pip_name := Js.lit "six"; pip_version := Js.lit "1.16.0" |};
               {| pip_name := Js.lit "six"; pip_version := Js.lit "1.15.0" |} ]
             (Fixture.json_text
                "[{'name':'six','latest_version':'1.17.0'},{'name':'six','latest_version':'1.18.0'}]")
             [] tt
             [ {| pip_outdated_name := Js.lit "six";
                  pip_latest_version := Js.lit "1.17.0" |};
               {| pip_outdated_name := Js.lit "six";
                  pip_latest_version := Js.lit "1.18.0" |} ]
             eq_refl eq_refl eq_refl).
    right. split; [vm_compute; discriminate | reflexivity].
  - vm_compute. reflexivity.
Defined.

(** ** The commands of a run, in order *)

Lemma bind_run (P : Platform) {A B} (c : Async P A) (k : A -> Async P B) rt :
  bind c k rt
  = match c rt with
    | (Returned a, rt1) => k a rt1
    | (Thrown e, rt1) => (Thrown e, rt1)
    end.
Proof. reflexivity. Qed.

Lemma no_spawn (P : Platform) {A} (c : Async P A) (rt : Runtime P) :
  spawns_only [] c -> spawned (snd (c rt)) = spawned rt.
Proof.
  intros H. destruct (H rt) as (l & E & I).
  destruct l as [|x l]; [rewrite E, app_nil_r; reflexivity|].
  destruct (I x); left; reflexivity.
Qed.

Lemma ran_list_only (P : Platform) m (rt : Runtime P) e w :
  ran_steps m rt
    (Thrown e, {| world := w; spawned := spawned rt ++ [list_command m] |}).
Proof. exists false. split; [reflexivity | discriminate]. Qed.

Lemma ran_both (P : Platform) m (rt : Runtime P) res :
  spawned (snd res)
  = (spawned rt ++ [list_command m]) ++ [outdated_command m] ->
  ran_steps m rt res.
Proof.
  intros E. exists true. split; [|discriminate].
  rewrite E, <- app_assoc. reflexivity.
Qed.

Lemma collectPip_ran (P : Platform) (rt : Runtime P) :
  ran_steps pip rt (collectPip rt).
Proof.
  unfold collectPip. rewrite bind_run, runCommand_run.
  destruct (fst (Bun_spawn P _ _)) as [c out err|e]; cbn [fst snd];
    [destruct (includes _ c)|]; try apply ran_list_only.
  cbv beta. cbn [stdout]. rewrite bind_run. unfold parse_or_throw at 1.
  destruct (JSON_parse_PipList P out) as [e|installed];
    [apply ran_list_only|].
  unfold ret at 1. cbv beta iota. rewrite bind_run, runCommand_run.
  apply ran_both.
  destruct (fst (Bun_spawn P _ _)) as [c2 out2 err2|e]; cbn [fst snd];
    [destruct (includes _ c2)|]; try reflexivity.
  cbv beta. rewrite no_spawn by spawns_only_tac. reflexivity.
Qed.

Lemma collectNpm_ran (P : Platform) (rt : Runtime P) :
  ran_steps npm rt (collectNpm rt).
Proof.
  unfold collectNpm. rewrite bind_run, runCommand_run.
  destruct (fst (Bun_spawn P _ _)) as [c out err|e]; cbn [fst snd];
    [destruct (includes _ c)|]; try apply ran_list_only.
  cbv beta. cbn [stdout]. rewrite bind_run. unfold parse_or_throw at 1.
  destruct (JSON_parse_NpmTree P out) as [e|tree];
    [apply ran_list_only|].
  unfold ret at 1. cbv beta iota. rewrite bind_run, runCommand_run.
  apply ran_both.
  destruct (fst (Bun_spawn P _ _)) as [c2 out2 err2|e]; cbn [fst snd];
    [destruct (includes _ c2)|]; try reflexivity.
  cbv beta. rewrite no_spawn by spawns_only_tac. reflexivity.
Qed.

Lemma collectBrew_ran (P : Platform) (rt : Runtime P) :
  ran_steps brew rt (collectBrew rt).
Proof.
  unfold collectBrew. rewrite bind_run, runCommand_run.
  destruct (fst (Bun_spawn P _ _)) as [c out err|e]; cbn [fst snd];
    [destruct (includes _ c)|]; try apply ran_list_only.
  cbv beta zeta. cbn [stdout].
  destruct (JsMap.size (brew_installed out) =? 0)%nat.
  - exists false. split; [reflexivity|].
    intros _ recs [= <-]. auto.
  - rewrite bind_run, runCommand_run. apply ran_both.
    destruct (fst (Bun_spawn P _ _)) as [c2 out2 err2|e]; cbn [fst snd];
      [destruct (includes _ c2)|]; try reflexivity.
    cbv beta. rewrite no_spawn by spawns_only_tac. reflexivity.
Qed.

Lemma collectBrew_returned_steps (P : Platform) (rt rt' : Runtime P) recs :
  collectBrew rt = (Returned recs, rt') ->
  recs = [] /\ spawned rt' = spawned rt ++ steps_spawned brew false
  \/ recs <> [] /\ spawned rt' = spawned rt ++ steps_spawned brew true.
Proof.
  unfold collectBrew. intros H. invert_run.
  - left. split; [reflexivity | assumption].
  - right. split.
    + match goal with
      | Hz : (JsMap.size ?m =? 0)%nat = false |- _ =>
          destruct m; [discriminate Hz | discriminate]
      end.
    + cbn [steps_spawned list_command outdated_command].
      repeat match goal with Hs : spawned _ = _ |- _ => rewrite Hs; clear Hs end.
      rewrite <- app_assoc. reflexivity.
  - right. split.
    + match goal with
      | Hz : (JsMap.size ?m =? 0)%nat = false |- _ =>
          destruct m; [discriminate Hz | discriminate]
      end.
    + cbn [steps_spawned list_command outdated_command].
      repeat match goal with Hs : spawned _ = _ |- _ => rewrite Hs; clear Hs end.
      rewrite <- app_assoc. reflexivity.
Qed.

(** X11.  Whatever its outcome, a collector spawns its inventory command
    first, then at most its outdated command, and nothing else.  The
    collectors of npm and pip return only after both commands, also when
    nothing is installed; the collector of Homebrew returns after the
    inventory command alone exactly when it returns no record. *)
Theorem collector_steps (P : Platform) (m : PackageManager) (rt : Runtime P) :
  exists both,
    spawned (snd (collector m rt)) = spawned rt ++ steps_spawned m both
    /\ forall recs,
         fst (collector m rt) = Returned recs ->
         both = match m with
                | brew => negb (List.length recs =? 0)%nat
                | _ => true
                end.
Proof.
  assert (H : ran_steps m rt (collector m rt))
    by (destruct m; [apply collectBrew_ran | apply collectNpm_ran
                    | apply collectPip_ran]).
  destruct H as (both & E & Hf). exists both.
  split; [exact E|]. intros recs Hr.
  destruct both.
  - destruct m; try reflexivity. cbn [collector] in *.
    destruct (collectBrew rt) as [o rt'] eqn:Hc. cbn [fst snd] in *.
    subst o. apply collectBrew_returned_steps in Hc.
    destruct Hc as [[-> Hs]|[N _]].
    + rewrite Hs in E. apply app_inv_head in E. discriminate E.
    + destruct recs; [contradiction N|]; reflexivity.
  - destruct (Hf eq_refl recs Hr) as [-> ->]. reflexivity.
Qed.

(** X11 at work: nothing is installed for npm, and its outdated command
    is spawned all the same; Homebrew lists nothing and spawns one
    command. *)
Lemma collector_steps_witness :
  spawned (snd (collectNpm (Fixture.start Fixture.npm_nothing_installed)))
  = steps_spawned npm true
  /\ spawned (snd (collectBrew (Fixture.start Fixture.npm_nothing_installed)))
     = steps_spawned brew false.
Proof.
  destruct (@collector_steps (Fixture.platform Fixture.npm_nothing_installed)
              npm (Fixture.start Fixture.npm_nothing_installed))
    as (both & E & _).
  cbn [collector] in E. split; [|reflexivity].
  rewrite E. destruct both; [reflexivity|].
  vm_compute in E. discriminate E.
Defined.



(** ** Warnings *)

(** X13.  The message of a manager's warning is the message of the error
    its collector threw, and a manager whose collector returned has no
    warning. *)
Theorem warnings_carry_messages (P : Platform) (rt : Runtime P) :
  exists summary,
    fst (collectInventory rt) = Returned summary
    /\ forall m,
         filter (fun w => PackageManager_eqb (warn_manager w) m)
           (warnings summary)
         = match outcome rt m with
           | Thrown e => [ {| warn_manager := m; warn_message := message e |} ]
           | Returned _ => []
           end.
Proof.
  rewrite collectInventory_run. eexists. split; [reflexivity|].
  cbn [warnings]. intros m. rewrite !filter_app.
  destruct m; destruct (outcome rt brew), (outcome rt npm), (outcome rt pip);
    reflexivity.
Qed.

(** X13 at work: the three steps that fail in the scenario, each with the
    message of its own failure. *)
Lemma warnings_carry_messages_witness :
  exists summary,
    fst (collectInventory (Fixture.start Scenario.failing_steps))
    = Returned summary
    /\ warnings summary
       = [ {| warn_manager := brew;
              warn_message := Js.lit "brew list --versions failed (exit 1): Error: Unknown command: list" |};
           {| warn_manager := npm;
              warn_message := Js.lit "Failed to parse npm outdated JSON: SyntaxError: JSON Parse error" |};
           {| warn_manager := pip;
              warn_message := Js.lit "pip list --outdated --format=json failed (exit 1): ERROR: no network" |} ].
Proof.
  destruct (warnings_carry_messages (Fixture.start Scenario.failing_steps))
    as (summary & E & _).
  exists summary. split; [exact E|].
  vm_compute in E. injection E as <-. reflexivity.
Defined.

(** ** The boxes of the two clients *)

Lemma fold_push (l : list PackageRecord) (base : Tui.Grouped) :
  fold_left Tui.push l base
  = {| Tui.of_brew :=
         Tui.of_brew base
         ++ filter (fun pkg => PackageManager_eqb (manager pkg) brew) l;
       Tui.of_npm :=
         Tui.of_npm base
         ++ filter (fun pkg => PackageManager_eqb (manager pkg) npm) l;
       Tui.of_pip :=
         Tui.of_pip base
         ++ filter (fun pkg => PackageManager_eqb (manager pkg) pip) l |}.
Proof.
  revert base. induction l as [|x l IH]; intros [b n p]; cbn [fold_left filter].
  - cbn. rewrite !app_nil_r. reflexivity.
  - rewrite IH. unfold Tui.push. destruct (manager x);
      cbn [Tui.of_brew Tui.of_npm Tui.of_pip PackageManager_eqb];
      rewrite <- ?app_assoc; reflexivity.
Qed.

Lemma partition_by_manager (l : list PackageRecord) :
  Permutation
    (filter (fun pkg => PackageManager_eqb (manager pkg) brew) l
     ++ filter (fun pkg => PackageManager_eqb (manager pkg) npm) l
     ++ filter (fun pkg => PackageManager_eqb (manager pkg) pip) l) l.
Proof.
  induction l as [|x l IH]; cbn [filter]; [constructor|].
  destruct (manager x); cbn [PackageManager_eqb].
  - cbn [app]. apply perm_skip. exact IH.
  - symmetry. apply Permutation_cons_app. symmetry. exact IH.
  - symmetry. rewrite app_assoc. apply Permutation_cons_app.
    rewrite <- app_assoc. symmetry. exact IH.
Qed.

(** X14.  For one snapshot the terminal client and the desktop page put
    the same packages, in the same order, in the box of each manager:
    [grouped] agrees with [packagesByManager].  The three boxes together
    hold every package of the snapshot exactly once, whatever the order
    of the snapshot. *)
Theorem grouped_agrees (t : Tui.State) (p : Page.State) :
  Tui.snapshot_ t = Page.inventory p ->
  Tui.of_brew (Tui.grouped t) = Page.packagesOf p brew
  /\ Tui.of_npm (Tui.grouped t) = Page.packagesOf p npm
  /\ Tui.of_pip (Tui.grouped t) = Page.packagesOf p pip
  /\ Permutation
       (Tui.of_brew (Tui.grouped t) ++ Tui.of_npm (Tui.grouped t)
        ++ Tui.of_pip (Tui.grouped t))
       (match Tui.snapshot_ t with Some s => packages s | None => [] end).
Proof.
  intros E. unfold Tui.grouped, Page.packagesOf. rewrite <- E.
  destruct (Tui.snapshot_ t) as [s|]; [|repeat split; constructor].
  rewrite fold_push. cbn [Tui.of_brew Tui.of_npm Tui.of_pip app].
  repeat split. apply partition_by_manager.
Qed.

(** X14 at work: the interleaved snapshot, grouped. *)
Lemma grouped_agrees_witness :
  let t := {| Tui.summary := None; Tui.snapshot_ := Some Wire.interleaved;
              Tui.warnings_ := []; Tui.error := None;
              Tui.loading := false |} in
  map name (Tui.of_brew (Tui.grouped t)) = [Js.lit "wget"]
  /\ map name (Tui.of_npm (Tui.grouped t)) = [Js.lit "typescript"]
  /\ Tui.of_pip (Tui.grouped t) = [].
Proof.
  intros t.
  destruct (@grouped_agrees t
              {| Page.summary := None;
                 Page.inventory := Some Wire.interleaved;
                 Page.warnings_ := []; Page.error := None;
                 Page.isLoading := false |} eq_refl)
    as (-> & -> & -> & _).
  repeat split.
Defined.

(** X15.  Once the terminal client's call of [collectInventory] has
    settled, its [error] is still [null] and it is no longer loading: the
    template shows the dashboard, never the error line.  The box of
    warnings is there exactly when there is a warning, and the box of
    each manager holds what that manager's collector returned, nothing
    when it threw. *)
Theorem tui_after_setup (P : Platform) (rt : Runtime P) :
  exists summary,
    fst (collectInventory rt) = Returned summary
    /\ fst (Tui.setup rt)
       = {| Tui.summary := Some summary;
            Tui.snapshot_ := Some (snapshot summary);
            Tui.warnings_ := warnings summary;
            Tui.error := None;
            Tui.loading := false |}
    /\ Tui.view (fst (Tui.setup rt))
       = Tui.Dashboard
           (match warnings summary with
            | [] => None
            | _ :: _ => Some (warnings summary)
            end)
           [ (brew, outcome_packages (outcome rt brew));
             (npm, outcome_packages (outcome rt npm));
             (pip, outcome_packages (outcome rt pip)) ].
Proof.
  unfold Tui.setup. rewrite collectInventory_run. cbn [fst].
  eexists. split; [reflexivity|]. split; [reflexivity|].
  unfold Tui.view, Tui.grouped.
  cbn [Tui.loading Tui.error Tui.warnings_ Tui.snapshot_ Tui.initial
       truthy_opt snapshot warnings].
  rewrite fold_push. cbn [Tui.of_brew Tui.of_npm Tui.of_pip app packages].
  destruct (packagesByManager_blocks
              (Some (fst (Date_toISOString P (world rt))))
              (outcome_manager rt brew) (outcome_manager rt npm)
              (outcome_manager rt pip)) as (Hb & Hn & Hp).
  cbv zeta in Hb, Hn, Hp. unfold packagesByManager in Hb, Hn, Hp.
  cbn [packages] in Hb, Hn, Hp. rewrite Hb, Hn, Hp.
  destruct (outcome_warnings brew (outcome rt brew)
            ++ outcome_warnings npm (outcome rt npm)
            ++ outcome_warnings pip (outcome rt pip)); reflexivity.
Qed.

(** X15 at work: no manager is installed; the terminal client shows three
    warnings above three empty boxes. *)
Lemma tui_after_setup_witness :
  exists ws,
    Tui.view (fst (Tui.setup (Fixture.start Scenario.nothing_on_path)))
    = Tui.Dashboard (Some ws) [ (brew, []); (npm, []); (pip, []) ]
    /\ map warn_manager ws = [brew; npm; pip].
Proof.
  destruct (tui_after_setup (Fixture.start Scenario.nothing_on_path))
    as (summary & E & _ & V).
  vm_compute in E. injection E as <-.
  eexists. split; [exact V | reflexivity].
Defined.

(** ** A formula listed more than once *)

Lemma JsMap_get_In k v m : JsMap.get k m = Some v -> In (k, v) m.
Proof.
  induction m as [|[k' v'] m IH]; simpl; [discriminate|].
  destruct (Js.eqb k' k) eqn:E; [|auto].
  apply Js_eqb_eq in E. intros [= ->]. subst. auto.
Qed.

Lemma brew_installed_step_other m line k :
  (Js.trim line <> [] -> 2 <= List.length (words line) ->
   nth 0 (words line) [] <> k) ->
  JsMap.get k (brew_installed_step m line) = JsMap.get k m.
Proof.
  intros H. unfold brew_installed_step. fold (words line).
  destruct (Js.truthy (Js.trim line)) eqn:T; cbn [negb]; [|reflexivity].
  destruct (List.length (words line) <? 2)%nat eqn:L; [reflexivity|].
  apply JsMap_get_set_other. intros E.
  apply H; [apply truthy_nonempty, T | apply Nat.ltb_ge, L|].
  symmetry. exact E.
Qed.

(** X17.  When a name is the first word of several lines of the listing,
    the record of [collectBrew] for it has the last word of the last of
    these lines as its version. *)
Theorem collectBrew_last_line_wins (P : Platform) (rt rt' : Runtime P) recs
    c out err w1 earlier line later :
  Bun_spawn P (list_command brew) (world rt) = (Exited c out err, w1) ->
  collectBrew rt = (Returned recs, rt') ->
  Js.split_on 10 out = earlier ++ line :: later ->
  Js.trim line <> [] ->
  2 <= List.length (words line) ->
  (forall l, In l later -> Js.trim l <> [] -> 2 <= List.length (words l) ->
             nth 0 (words l) [] <> nth 0 (words line) []) ->
  exists r,
    In r recs /\ name r = nth 0 (words line) []
    /\ current_version r = last (words line) [].
Proof.
  intros Hs H Hsplit T L Hlater. apply collectBrew_returned_listing in H.
  destruct H as (out' & err' & w1' & om & Hs' & ->).
  rewrite Hs in Hs'. injection Hs' as _ <- _ _.
  assert (G : JsMap.get (nth 0 (words line) []) (brew_installed out)
              = Some (last (words line) [])).
  { unfold brew_installed. rewrite Hsplit, fold_left_app. cbn [fold_left].
    set (m1 := fold_left brew_installed_step earlier JsMap.empty).
    assert (G1 : JsMap.get (nth 0 (words line) [])
                   (brew_installed_step m1 line)
                 = Some (last (words line) [])).
    { unfold brew_installed_step. fold (words line).
      apply truthy_nonempty in T. rewrite T. cbn [negb].
      apply Nat.ltb_ge in L. rewrite L. apply JsMap_get_set_same. }
    revert G1. generalize (brew_installed_step m1 line). clear m1 Hsplit.
    induction later as [|l later IH]; intros m G1; [exact G1|].
    cbn [fold_left]. apply IH.
    - intros l' Hl'. apply Hlater. right. exact Hl'.
    - rewrite brew_installed_step_other; [exact G1|].
      apply Hlater. left. reflexivity. }
  apply JsMap_get_In in G.
  exists (brew_record om (nth 0 (words line) [], last (words line) [])).
  split; [apply in_map, G | split; reflexivity].
Qed.

(** X17 at work: [wget] is listed at [1.24.4] on the first line and at
    [1.24.5] on the last; its record has [1.24.5]. *)
Lemma collectBrew_last_line_wins_witness :
  exists recs r,
    fst (collectBrew (Fixture.start Scenario.duplicates)) = Returned recs
    /\ In r recs /\ name r = Js.lit "wget"
    /\ current_version r = Js.lit "1.24.5".
Proof.
  destruct (collectBrew (Fixture.start Scenario.duplicates))
    as [[recs|e] rt'] eqn:E; [|vm_compute in E; discriminate E].
  destruct (@collectBrew_last_line_wins
              (Fixture.platform Scenario.duplicates)
              (Fixture.start Scenario.duplicates) rt' recs 0%Z
              (Fixture.lines ["wget 1.24.4"; ""; "python 3.11.9 3.12.4";
                              "lonely"; "  wget   1.24.5  "]) [] tt
              [Js.lit "wget 1.24.4"; []; Js.lit "python 3.11.9 3.12.4";
               Js.lit "lonely"]
              (Js.lit "  wget   1.24.5  ") [[]]
              eq_refl E eq_refl) as (r & Hin & Hn & Hv).
  - vm_compute. discriminate.
  - vm_compute. lia.
  - intros l [<-|[]] N. contradiction N. reflexivity.
  - exists recs, r. repeat split; assumption.
Defined.

(* ================================================================= *)
(** * The status and the outdated output *)
(* ================================================================= *)












